(** * The environment evaluator of tau2 (src/tau2/evaluator/evaluator_env.py)

    A shallow embedding of [EnvironmentEvaluator.calculate_reward] and of the
    helpers it calls, followed by the properties of the reward it returns.

    Python floats are the kernel's binary64 floats, dictionaries keyed by an
    enumeration are [gmap]s, exceptions are a result type, and the loguru and
    Logfire output is an event list threaded through every step. *)

From Stdlib Require Import Floats.PrimFloat Sorting.Sorted.
From stdpp Require Import gmap strings list.

(** ** Python values, exceptions and results *)

(** The JSON-like values that travel through tool arguments, seeds and
    database snapshots. *)
#[local] Unset Elimination Schemes.
Inductive pyval : Type :=
  | PyNone
  | PyBool (b : bool)
  | PyInt (z : Z)
  | PyStr (s : string)
  | PyList (l : list pyval)
  | PyDict (d : list (string * pyval)).
#[local] Set Elimination Schemes.

(** [dict[str, Any]], in insertion order. *)
Definition pydict : Type := list (string * pyval).

Definition keys (d : pydict) : list string := d.*1.

(** An instance of a subclass of Python's [Exception]. *)
Inductive exn : Type := Exception (message : string).

Inductive result (A : Type) : Type :=
  | Return (a : A)
  | Raise (e : exn).
Arguments Return {A} a.
Arguments Raise {A} e.

Definition is_raise {A} (r : result A) : bool :=
  match r with Raise _ => true | Return _ => false end.

(** Python floats. *)
Definition one : float := 1%float.
Definition zero : float := 0%float.

(** ** tau2.data_model.message *)

Inductive Requestor : Type := user | assistant.

Record ToolCall : Type := mkToolCall {
  tc_id : string;
  tc_name : string;
  tc_arguments : pydict;
  tc_requestor : Requestor
}.

(** The message classes are declared in tau2.data_model.message, which the
    evaluator imports; one constructor per class, with the [tool_calls] field
    of the two classes that have it. *)
Inductive Message : Type :=
  | SystemMessage (content : option string)
  | AssistantMessage (content : option string) (tool_calls : option (list ToolCall))
  | UserMessage (content : option string) (tool_calls : option (list ToolCall))
  | ToolMessage (id : string) (content : option string) (requestor : Requestor).

(** ** tau2.data_model.tasks *)

Inductive RewardType : Type := DB | ENV_ASSERTION | COMMUNICATE.

Global Instance RewardType_eq_dec : EqDecision RewardType.
Proof. solve_decision. Defined.

Global Instance RewardType_countable : Countable RewardType.
Proof.
  refine (inj_countable'
    (fun k => match k with DB => 0%nat | ENV_ASSERTION => 1%nat | COMMUNICATE => 2%nat end)
    (fun n => match n with 0%nat => DB | 1%nat => ENV_ASSERTION | _ => COMMUNICATE end) _).
  intros []; reflexivity.
Defined.

Record Action : Type := mkAction {
  name : string;
  requestor : Requestor;
  arguments : pydict
}.

Record EnvFunctionCall : Type := mkEnvFunctionCall {
  env_type : Requestor;
  func_name : string;
  func_arguments : pydict
}.

Record EnvAssertion : Type := mkEnvAssertion {
  assert_call : EnvFunctionCall;
  assert_value : bool
}.

Record InitialState : Type := mkInitialState {
  initialization_data : option pyval;
  initialization_actions : option (list EnvFunctionCall);
  message_history : option (list Message)
}.

Record EvaluationCriteria : Type := mkEvaluationCriteria {
  actions : option (list Action);
  env_assertions : option (list EnvAssertion);
  reward_basis : list RewardType
}.

Record Task : Type := mkTask {
  id : string;
  initial_state : option InitialState;
  evaluation_criteria : option EvaluationCriteria
}.

(** ** tau2.data_model.simulation *)

Record DBCheck : Type := mkDBCheck {
  db_match : bool;
  db_reward : float
}.

Record EnvAssertionCheck : Type := mkEnvAssertionCheck {
  eac_env_assertion : EnvAssertion;
  met : bool;
  eac_reward : float
}.

(** A field the evaluator does not pass to the constructor keeps the default
    of the class, written [None]. *)
Record RewardInfo : Type := mkRewardInfo {
  reward : float;
  db_check : option DBCheck;
  ri_env_assertions : option (list EnvAssertionCheck);
  ri_reward_basis : option (list RewardType);
  reward_breakdown : option (gmap RewardType float);
  info : option (list (string * string))
}.

(** ** tau2.environment.environment: the interface the evaluator calls *)

(** A digest is what [get_db_hash] returns: a hex string, or [None] for an
    environment without that database. *)
Definition Digest : Type := option string.

(** The methods of [Environment] that [calculate_reward] calls. The class is
    declared in tau2.environment.environment, outside the files modelled
    here, so its methods are the parameters of the development. Every method
    call may raise. A method that mutates the object returns the object after
    the call next to its outcome, also when it raises; the [get_*] methods
    only read. [tools] is a data attribute of the object, read at lines 99
    and 116 like the fields of a task; [tools_is_not_none] is the test
    [tools is not None] on it. *)
Class Environment (Env : Type) : Type := {
  set_state : option pyval -> option (list EnvFunctionCall) -> list Message ->
              Env -> result unit * Env;
  tools_is_not_none : Env -> bool;
  make_tool_call : string -> Requestor -> pydict -> Env -> result pyval * Env;
  get_db_hash : Env -> result Digest;
  get_user_db_hash : Env -> result Digest;
  get_agent_db_state : Env -> result (option pydict);
  get_user_db_state : Env -> result (option pydict);
  run_env_assertion : EnvAssertion -> bool -> Env -> result bool * Env
}.

(** ** Logging and Logfire *)

Inductive Span : Type :=
  | agent_db_updated_gold (task_id : string) (step_index : nat)
      (tool_name : string) (tool_arguments : pydict) (agent_db_diff : option pyval)
  | db_check_span (task_id : string) (db_match agent_db_match user_db_match : bool)
      (expected_agent_db_hash predicted_agent_db_hash : Digest)
      (expected_user_db_hash predicted_user_db_hash : Digest)
      (agent_db_diff user_db_diff : option pyval)
      (expected_agent_db_state predicted_agent_db_state : option pydict)
      (expected_user_db_state predicted_user_db_state : option pydict).

Inductive Event : Type :=
  | warning_golden_action (action_name : string) (action_arguments : pydict) (e : exn)
  | debug_agent_db_mismatch (task_id : string)
  | debug_user_db_mismatch (task_id : string)
  | span_emitted (s : Span).

(** What the process-wide Logfire state looks like to the evaluator:
    [_logfire_configured] of tau2/logfire_setup.py, and the outcomes of the
    three library calls made under the [try] blocks. *)
Record Logfire : Type := mkLogfire {
  _logfire_configured : bool;
  import_logfire : result unit;
  DeepDiff : pydict -> pydict -> result pyval;
  span : Span -> result unit
}.

(** ** The evaluation monad: exceptions over an event log *)

Definition M (A : Type) : Type := list Event -> result A * list Event.

Definition ret {A} (a : A) : M A := fun log => (Return a, log).

Definition raise {A} (e : exn) : M A := fun log => (Raise e, log).

Definition bind {A B} (m : M A) (k : A -> M B) : M B :=
  fun log =>
    match m log with
    | (Return a, log') => k a log'
    | (Raise e, log') => (Raise e, log')
    end.

Notation "'let!' x ':=' m 'in' k" := (bind m (fun x => k))
  (at level 10, x pattern, m at level 100, k at level 200).

Definition emit (ev : Event) : M unit := fun log => (Return tt, log ++ [ev]).

(** The outcome of a call that touches no evaluator state. *)
Definition call {A} (r : result A) : M A := fun log => (r, log).

(** [try: body / except Exception as e: handler e]. *)
Definition try_except {A} (body : M A) (handler : exn -> M A) : M A :=
  fun log =>
    match body log with
    | (Return a, log') => (Return a, log')
    | (Raise e, log') => handler e log'
    end.

Definition outcome {A} (r : result A * list Event) : result A := r.1.

(** ** tau2.utils.utils *)

Section Evaluator.

Context {Env : Type} `{!Environment Env}.
Variable logfire : Logfire.

(** [is_logfire_enabled] of tau2/logfire_setup.py. *)
Definition is_logfire_enabled : bool := _logfire_configured logfire.

(** [dict_diff_for_logging]. The last three lines of the source ([DeepDiff],
    [_make_diff_serializable] and the JSON round trip) are library calls on the
    two snapshots; they are the [DeepDiff] field of [logfire]. *)
Definition dict_diff_for_logging (expected predicted : option pydict)
  : result (option pyval) :=
  match expected, predicted with
  | None, None => Return None
  | None, Some predicted =>
      Return (Some (PyDict
        [("note", PyStr "expected is None");
         ("predicted_keys",
          PyList (PyStr <$> (if bool_decide (predicted = []) then [] else keys predicted)))]))
  | Some expected, None =>
      Return (Some (PyDict
        [("note", PyStr "predicted is None");
         ("expected_keys",
          PyList (PyStr <$> (if bool_decide (expected = []) then [] else keys expected)))]))
  | Some expected, Some predicted =>
      match DeepDiff logfire expected predicted with
      | Return diff => Return (Some diff)
      | Raise e => Raise e
      end
  end.

(** ** tau2.data_model.message, the methods the evaluator calls *)

Definition isinstance_AssistantMessage (message : Message) : bool :=
  match message with AssistantMessage _ _ => true | _ => false end.

Definition isinstance_UserMessage (message : Message) : bool :=
  match message with UserMessage _ _ => true | _ => false end.

Definition tool_calls (message : Message) : option (list ToolCall) :=
  match message with
  | AssistantMessage _ tool_calls | UserMessage _ tool_calls => tool_calls
  | _ => None
  end.

(** [is_tool_call]: the message has a [tool_calls] list. *)
Definition is_tool_call (message : Message) : bool :=
  bool_decide (tool_calls message <> None).

(** [list.extend]: an argument that is not iterable raises [TypeError]. *)
Definition extend {A} (l : list A) (iterable : option (list A)) : result (list A) :=
  match iterable with
  | Some xs => Return (l ++ xs)
  | None => Raise (Exception "TypeError: 'NoneType' object is not iterable")
  end.

(** ** EnvironmentEvaluator.calculate_reward, block by block *)

(** A call of a method that mutates the environment, outside any [try]. *)
Definition method {A} (r : result A * Env) : M (A * Env) :=
  match r.1 with
  | Return a => ret (a, r.2)
  | Raise e => raise e
  end.

(** Lines 80-86: the loop collecting [predicted_tool_calls]. *)
Fixpoint extract_tool_calls (full_trajectory : list Message)
    (predicted_tool_calls : list ToolCall) : M (list ToolCall) :=
  match full_trajectory with
  | [] => ret predicted_tool_calls
  | message :: rest =>
      if (isinstance_AssistantMessage message || isinstance_UserMessage message)
         && is_tool_call message
      then
        let! predicted_tool_calls :=
          call (extend predicted_tool_calls (tool_calls message)) in
        extract_tool_calls rest predicted_tool_calls
      else extract_tool_calls rest predicted_tool_calls
  end.

(** Lines 112-135: the Logfire span of a golden action's effect on the agent
    database. *)
Definition log_golden_action (task : Task) (step_index : nat) (action : Action)
    (agent_db_before_gold : option pydict) (gold_environment : Env) : M unit :=
  if is_logfire_enabled
     && bool_decide (agent_db_before_gold <> None)
     && tools_is_not_none gold_environment
  then
    try_except
      (let! _ := call (import_logfire logfire) in
       let! agent_db_after_gold := call (get_agent_db_state gold_environment) in
       let! diff :=
         call (dict_diff_for_logging agent_db_before_gold agent_db_after_gold) in
       let s :=
         agent_db_updated_gold (id task) step_index (name action)
           (arguments action) diff in
       let! _ := call (span logfire s) in
       emit (span_emitted s))
      (fun _ => ret tt)
  else ret tt.

(** Lines 97-135: the body of the loop over the golden actions. *)
Definition golden_step (task : Task) (step_index : nat) (action : Action)
    (gold_environment : Env) : M Env :=
  let! agent_db_before_gold :=
    (if tools_is_not_none gold_environment
     then call (get_agent_db_state gold_environment)
     else ret None) in
  let attempt :=
    make_tool_call (name action) (requestor action) (arguments action)
      gold_environment in
  let gold_environment := attempt.2 in
  let! _ :=
    try_except (let! _ := call attempt.1 in ret tt)
      (fun e => emit (warning_golden_action (name action) (arguments action) e)) in
  let! _ :=
    log_golden_action task step_index action agent_db_before_gold gold_environment in
  ret gold_environment.

(** Lines 96-135: [for step_index, action in enumerate(golden_actions)]. *)
Fixpoint replay_golden_actions (task : Task) (step_index : nat)
    (golden_actions : list Action) (gold_environment : Env) : M Env :=
  match golden_actions with
  | [] => ret gold_environment
  | action :: rest =>
      let! gold_environment := golden_step task step_index action gold_environment in
      replay_golden_actions task (S step_index) rest gold_environment
  end.

(** The locals of lines 138-149. *)
Record Comparison : Type := mkComparison {
  agent_db_hash : Digest;
  user_db_hash : Digest;
  predicted_agent_db_hash : Digest;
  predicted_user_db_hash : Digest;
  agent_db_match : bool;
  user_db_match : bool;
  cmp_db_reward : float;
  cmp_db_match : bool
}.

(** Lines 142-149: comparing the four digests. *)
Definition compare_digests
    (agent_db_hash user_db_hash predicted_agent_db_hash predicted_user_db_hash : Digest)
  : Comparison :=
  let agent_db_match := bool_decide (agent_db_hash = predicted_agent_db_hash) in
  let user_db_match := bool_decide (user_db_hash = predicted_user_db_hash) in
  let '(db_reward, db_match) :=
    if agent_db_match && user_db_match then (one, true) else (zero, false) in
  mkComparison agent_db_hash user_db_hash predicted_agent_db_hash
    predicted_user_db_hash agent_db_match user_db_match db_reward db_match.

(** Lines 138-149: reading the digests, outside any [try], and comparing
    them. *)
Definition compare_hashes (gold_environment predicted_environment : Env)
  : result Comparison :=
  match get_db_hash gold_environment with
  | Raise e => Raise e
  | Return agent_db_hash =>
      match get_user_db_hash gold_environment with
      | Raise e => Raise e
      | Return user_db_hash =>
          match get_db_hash predicted_environment with
          | Raise e => Raise e
          | Return predicted_agent_db_hash =>
              match get_user_db_hash predicted_environment with
              | Raise e => Raise e
              | Return predicted_user_db_hash =>
                  Return (compare_digests agent_db_hash user_db_hash
                            predicted_agent_db_hash predicted_user_db_hash)
              end
          end
      end
  end.

(** Lines 150-158: the debug lines of the mismatch branch. *)
Definition log_mismatch (task : Task) (c : Comparison) : M unit :=
  if agent_db_match c && user_db_match c then ret tt
  else
    let! _ :=
      (if negb (agent_db_match c) then emit (debug_agent_db_mismatch (id task))
       else ret tt) in
    if negb (user_db_match c) then emit (debug_user_db_mismatch (id task))
    else ret tt.

(** Lines 161-194: the Logfire span of the comparison. *)
Definition log_db_check (task : Task) (c : Comparison)
    (gold_environment predicted_environment : Env) : M unit :=
  if is_logfire_enabled then
    try_except
      (let! _ := call (import_logfire logfire) in
       let! expected_agent_db := call (get_agent_db_state gold_environment) in
       let! expected_user_db := call (get_user_db_state gold_environment) in
       let! predicted_agent_db := call (get_agent_db_state predicted_environment) in
       let! predicted_user_db := call (get_user_db_state predicted_environment) in
       let! agent_db_diff :=
         call (dict_diff_for_logging expected_agent_db predicted_agent_db) in
       let! user_db_diff :=
         call (dict_diff_for_logging expected_user_db predicted_user_db) in
       let s :=
         db_check_span (id task) (cmp_db_match c) (agent_db_match c) (user_db_match c)
           (agent_db_hash c) (predicted_agent_db_hash c)
           (user_db_hash c) (predicted_user_db_hash c)
           agent_db_diff user_db_diff
           expected_agent_db predicted_agent_db
           expected_user_db predicted_user_db in
       let! _ := call (span logfire s) in
       emit (span_emitted s))
      (fun _ => ret tt)
  else ret tt.

(** Lines 202-213: the loop over the assertions, with its three locals. *)
Fixpoint run_env_assertions (env_assertions : list EnvAssertion)
    (predicted_environment : Env) (env_assertion_checks : list EnvAssertionCheck)
    (env_assertion_reward : float) : M (list EnvAssertionCheck * float) :=
  match env_assertions with
  | [] => ret (env_assertion_checks, env_assertion_reward)
  | env_assertion :: rest =>
      let! (success, predicted_environment) :=
        method (run_env_assertion env_assertion false predicted_environment) in
      let res :=
        mkEnvAssertionCheck env_assertion success (if success then one else zero) in
      run_env_assertions rest predicted_environment
        (env_assertion_checks ++ [res])
        (mul env_assertion_reward (eac_reward res))
  end.

(** Lines 215-222: the scalar reward and its breakdown. *)
Definition compose_reward (reward_basis : list RewardType)
    (db_reward env_assertion_reward : float) : float * gmap RewardType float :=
  let reward := one in
  let reward_breakdown : gmap RewardType float := ∅ in
  let '(reward_breakdown, reward) :=
    if bool_decide (DB ∈ reward_basis)
    then (<[DB := db_reward]> reward_breakdown, mul reward db_reward)
    else (reward_breakdown, reward) in
  let '(reward_breakdown, reward) :=
    if bool_decide (ENV_ASSERTION ∈ reward_basis)
    then (<[ENV_ASSERTION := env_assertion_reward]> reward_breakdown,
          mul reward env_assertion_reward)
    else (reward_breakdown, reward) in
  (reward, reward_breakdown).

(** Lines 53-72: the seed the task carries, with its defaults. *)
Definition task_initialization_data (task : Task) : option pyval :=
  match initial_state task with
  | Some st => match initialization_data st with Some d => Some d | None => None end
  | None => None
  end.

Definition task_initialization_actions (task : Task) : option (list EnvFunctionCall) :=
  match initial_state task with
  | Some st => match initialization_actions st with Some a => Some a | None => None end
  | None => None
  end.

Definition task_message_history (task : Task) : list Message :=
  match initial_state task with
  | Some st => match message_history st with Some h => h | None => [] end
  | None => []
  end.

(** Lines 74-94: both environments, constructed and seeded. The constructor
    takes [solo_mode] as an optional keyword. *)
Definition seed_environments (environment_constructor : option bool -> result Env)
    (task : Task) (full_trajectory : list Message) (solo_mode : bool)
  : M (Env * Env) :=
  let initialization_data := task_initialization_data task in
  let initialization_actions := task_initialization_actions task in
  let message_history := task_message_history task in
  let! predicted_environment := call (environment_constructor (Some solo_mode)) in
  let! (_, predicted_environment) :=
    method (set_state initialization_data initialization_actions full_trajectory
              predicted_environment) in
  let! predicted_tool_calls := extract_tool_calls full_trajectory [] in
  (* Setting up gold environment *)
  let! gold_environment := call (environment_constructor None) in
  let! (_, gold_environment) :=
    method (set_state initialization_data initialization_actions message_history
              gold_environment) in
  ret (predicted_environment, gold_environment).

(** Lines 95-230: from the seeded environments to the [RewardInfo]. *)
Definition evaluate (task : Task) (criteria : EvaluationCriteria)
    (predicted_environment gold_environment : Env) : M RewardInfo :=
  let golden_actions := default [] (actions criteria) in
  let! gold_environment :=
    replay_golden_actions task 0 golden_actions gold_environment in
  (* Comparing the environments *)
  let! c := call (compare_hashes gold_environment predicted_environment) in
  let! _ := log_mismatch task c in
  let! _ := log_db_check task c gold_environment predicted_environment in
  let db_check := mkDBCheck (cmp_db_match c) (cmp_db_reward c) in
  (* Run env assertions *)
  let env_assertions := default [] (env_assertions criteria) in
  let! (env_assertion_checks, env_assertion_reward) :=
    run_env_assertions env_assertions predicted_environment [] one in
  let '(reward, reward_breakdown) :=
    compose_reward (reward_basis criteria) (cmp_db_reward c) env_assertion_reward in
  ret (mkRewardInfo reward (Some db_check) (Some env_assertion_checks)
         (Some (reward_basis criteria)) (Some reward_breakdown) None).

(** [EnvironmentEvaluator.calculate_reward]. *)
Definition calculate_reward (environment_constructor : option bool -> result Env)
    (task : Task) (full_trajectory : list Message) (solo_mode : bool)
  : M RewardInfo :=
  match evaluation_criteria task with
  | None =>
      ret (mkRewardInfo one None None None None
             (Some [("note", "No evaluation criteria")]))
  | Some criteria =>
      let expected_actions := actions criteria in
      let env_assertions := env_assertions criteria in
      if bool_decide (expected_actions = None) && bool_decide (env_assertions = None)
      then
        ret (mkRewardInfo one (Some (mkDBCheck true one)) None None None
               (Some [("note", "No expected actions or env assertions")]))
      else
        let! (predicted_environment, gold_environment) :=
          seed_environments environment_constructor task full_trajectory solo_mode in
        evaluate task criteria predicted_environment gold_environment
  end.

(** ** The same function without the loop of lines 80-86 *)

Definition seed_environments_without_extraction
    (environment_constructor : option bool -> result Env)
    (task : Task) (full_trajectory : list Message) (solo_mode : bool)
  : M (Env * Env) :=
  let initialization_data := task_initialization_data task in
  let initialization_actions := task_initialization_actions task in
  let message_history := task_message_history task in
  let! predicted_environment := call (environment_constructor (Some solo_mode)) in
  let! (_, predicted_environment) :=
    method (set_state initialization_data initialization_actions full_trajectory
              predicted_environment) in
  let! gold_environment := call (environment_constructor None) in
  let! (_, gold_environment) :=
    method (set_state initialization_data initialization_actions message_history
              gold_environment) in
  ret (predicted_environment, gold_environment).

Definition calculate_reward_without_extraction
    (environment_constructor : option bool -> result Env)
    (task : Task) (full_trajectory : list Message) (solo_mode : bool)
  : M RewardInfo :=
  match evaluation_criteria task with
  | None =>
      ret (mkRewardInfo one None None None None
             (Some [("note", "No evaluation criteria")]))
  | Some criteria =>
      if bool_decide (actions criteria = None)
         && bool_decide (env_assertions criteria = None)
      then
        ret (mkRewardInfo one (Some (mkDBCheck true one)) None None None
               (Some [("note", "No expected actions or env assertions")]))
      else
        let! (predicted_environment, gold_environment) :=
          seed_environments_without_extraction environment_constructor task
            full_trajectory solo_mode in
        evaluate task criteria predicted_environment gold_environment
  end.

End Evaluator.

(** ** A reference environment

    Its two databases are the names of the tool calls applied so far, in
    order. Seeding replays the tool calls of the message history; the tool
    [unknown_tool] does not exist; the seed [PyStr "corrupt"] is rejected. *)
Module Ledger.

Record ledger : Type := mkLedger {
  agent_db : list string;
  user_db : list string
}.

Definition record_call (tool_name : string) (who : Requestor) (env : ledger) : ledger :=
  match who with
  | assistant => mkLedger (agent_db env ++ [tool_name]) (user_db env)
  | user => mkLedger (agent_db env) (user_db env ++ [tool_name])
  end.

Definition ledger_make_tool_call (tool_name : string) (who : Requestor)
    (kwargs : pydict) (env : ledger) : result pyval * ledger :=
  if String.eqb tool_name "unknown_tool"
  then (Raise (Exception "Tool 'unknown_tool' not found."), env)
  else (Return PyNone, record_call tool_name who env).

Definition replay_message (env : ledger) (message : Message) : ledger :=
  match message with
  | AssistantMessage _ (Some calls) | UserMessage _ (Some calls) =>
      fold_left (fun env tc => record_call (tc_name tc) (tc_requestor tc) env) calls env
  | _ => env
  end.

Definition ledger_set_state (data : option pyval)
    (init_actions : option (list EnvFunctionCall)) (history : list Message)
    (env : ledger) : result unit * ledger :=
  match data with
  | Some (PyStr "corrupt") => (Raise (Exception "invalid initialization_data"), env)
  | _ => (Return tt, fold_left replay_message history env)
  end.

Definition digest (db : list string) : Digest := Some (String.concat "," db).

Definition snapshot (db : list string) : pydict := (fun n => (n, PyBool true)) <$> db.

Definition ledger_run_env_assertion (assertion : EnvAssertion)
    (raise_assertion_error : bool) (env : ledger) : result bool * ledger :=
  let res := bool_decide (func_name (assert_call assertion) ∈ agent_db env) in
  let assert_pass := Bool.eqb res (assert_value assertion) in
  if raise_assertion_error && negb assert_pass
  then (Raise (Exception "Assertion failed"), env)
  else (Return assert_pass, env).

#[export] Instance ledger_environment : Environment ledger := {
  set_state := ledger_set_state;
  tools_is_not_none := fun _ => true;
  make_tool_call := ledger_make_tool_call;
  get_db_hash := fun env => Return (digest (agent_db env));
  get_user_db_hash := fun env => Return (digest (user_db env));
  get_agent_db_state := fun env => Return (Some (snapshot (agent_db env)));
  get_user_db_state := fun env => Return (Some (snapshot (user_db env)));
  run_env_assertion := ledger_run_env_assertion
}.

Definition constructor (solo_mode : option bool) : result ledger :=
  Return (mkLedger [] []).

Definition failing_constructor (solo_mode : option bool) : result ledger :=
  Raise (Exception "domain not registered").

(** The same domain behind a store whose snapshots cannot be taken: every
    method works as before, except that the two [get_*_db_state] raise. *)
Inductive sealed : Type := seal (env : ledger).

Definition unseal (s : sealed) : ledger := match s with seal env => env end.

Definition sealed_method {A} (r : result A * ledger) : result A * sealed :=
  (r.1, seal r.2).

#[export] Instance sealed_environment : Environment sealed := {
  set_state := fun data init_actions history s =>
    sealed_method (ledger_set_state data init_actions history (unseal s));
  tools_is_not_none := fun _ => true;
  make_tool_call := fun tool_name who kwargs s =>
    sealed_method (ledger_make_tool_call tool_name who kwargs (unseal s));
  get_db_hash := fun s => Return (digest (agent_db (unseal s)));
  get_user_db_hash := fun s => Return (digest (user_db (unseal s)));
  get_agent_db_state := fun _ => Raise (Exception "agent database cannot be dumped");
  get_user_db_state := fun _ => Raise (Exception "user database cannot be dumped");
  run_env_assertion := fun assertion raise_assertion_error s =>
    sealed_method (ledger_run_env_assertion assertion raise_assertion_error (unseal s))
}.

Definition sealed_constructor (solo_mode : option bool) : result sealed :=
  Return (seal (mkLedger [] [])).

Definition logfire_off : Logfire :=
  mkLogfire false (Raise (Exception "ModuleNotFoundError: logfire"))
    (fun _ _ => Return (PyDict [])) (fun _ => Return tt).

Definition logfire_on : Logfire :=
  mkLogfire true (Return tt) (fun _ _ => Return (PyDict [])) (fun _ => Return tt).

Definition book_flight : Action :=
  mkAction "book_flight" assistant [("flight_id", PyStr "F1")].

Definition unknown_tool : Action := mkAction "unknown_tool" assistant [].

Definition send_receipt : Action := mkAction "send_receipt" assistant [].

Definition booked : EnvAssertion :=
  mkEnvAssertion (mkEnvFunctionCall assistant "book_flight" []) true.

Definition receipt_sent : EnvAssertion :=
  mkEnvAssertion (mkEnvFunctionCall assistant "send_receipt" []) true.

Definition agent_books : list Message :=
  [UserMessage (Some "Book F1, please.") None;
   AssistantMessage None
     (Some [mkToolCall "call_1" "book_flight" [("flight_id", PyStr "F1")] assistant]);
   ToolMessage "call_1" (Some "ok") assistant;
   AssistantMessage (Some "Done.") None].

(** Sample tasks. *)
Definition no_criteria_task : Task := mkTask "no_criteria" None None.

Definition absent_criteria : EvaluationCriteria :=
  mkEvaluationCriteria None None [DB; COMMUNICATE].

Definition absent_task : Task := mkTask "absent" None (Some absent_criteria).

Definition empty_criteria : EvaluationCriteria :=
  mkEvaluationCriteria (Some []) (Some []) [DB; COMMUNICATE].

Definition empty_task : Task := mkTask "empty" None (Some empty_criteria).

Definition booking_criteria : EvaluationCriteria :=
  mkEvaluationCriteria (Some [book_flight; unknown_tool; send_receipt])
    (Some [booked; receipt_sent]) [DB; ENV_ASSERTION].

Definition booking_task : Task := mkTask "booking" None (Some booking_criteria).

Definition corrupt_task : Task :=
  mkTask "corrupt" (Some (mkInitialState (Some (PyStr "corrupt")) None None))
    (Some booking_criteria).

(** What the evaluator returns on some of them. *)
Definition shortcut_reward_info : RewardInfo :=
  mkRewardInfo one (Some (mkDBCheck true one)) None None None
    (Some [("note", "No expected actions or env assertions")]).

Definition empty_reward_info : RewardInfo :=
  mkRewardInfo zero (Some (mkDBCheck false zero)) (Some [])
    (Some [DB; COMMUNICATE]) (Some {[DB := zero]}) None.

Definition booking_reward_info : RewardInfo :=
  mkRewardInfo zero (Some (mkDBCheck false zero))
    (Some [mkEnvAssertionCheck booked true one;
           mkEnvAssertionCheck receipt_sent false zero])
    (Some [DB; ENV_ASSERTION])
    (Some (<[ENV_ASSERTION := zero]> {[DB := zero]})) None.

Definition booking_log : list Event :=
  [warning_golden_action "unknown_tool" [] (Exception "Tool 'unknown_tool' not found.");
   debug_agent_db_mismatch "booking"].

End Ledger.

(** * The vocabulary of the properties *)

(** A reward is one of the two floats the evaluator ever writes. *)
Definition binary (r : float) : Prop := r = one \/ r = zero.

(** The product of a list of floats, taken left to right from 1.0. *)
Definition product (rewards : list float) : float := fold_left mul rewards one.

(** The signals a reward basis selects, in the order the evaluator multiplies
    them, and the breakdown entry of each kind. *)
Definition selected_signals (reward_basis : list RewardType)
    (db_reward env_assertion_reward : float) : list float :=
  (if bool_decide (DB ∈ reward_basis) then [db_reward] else [])
  ++ (if bool_decide (ENV_ASSERTION ∈ reward_basis) then [env_assertion_reward] else []).

Definition selected_entry (reward_basis : list RewardType)
    (db_reward env_assertion_reward : float) (kind : RewardType) : option float :=
  match kind with
  | DB => if bool_decide (DB ∈ reward_basis) then Some db_reward else None
  | ENV_ASSERTION =>
      if bool_decide (ENV_ASSERTION ∈ reward_basis) then Some env_assertion_reward
      else None
  | COMMUNICATE => None
  end.

(** The aggregate reward of a list of assertion checks; a [RewardInfo]
    without checks has nothing to multiply. *)
Definition aggregate (checks : option (list EnvAssertionCheck)) : float :=
  product (eac_reward <$> default [] checks).

Definition is_warning (ev : Event) : bool :=
  match ev with warning_golden_action _ _ _ => true | _ => false end.

Definition warnings (log : list Event) : list Event := List.filter is_warning log.

(** "Empty or absent", for an optional list of the criteria. *)
Definition empty_or_absent {A} (l : option (list A)) : Prop := l = None \/ l = Some [].

Section Outcome.

Context {Env : Type} `{!Environment Env}.

(** Modelled from the spec: [Environment.run_env_assertion] belongs to
    tau2.environment.environment, which is not under src/. Sections 4.4 and 7
    give its contract for [raise_assertion_error=False]: a failure to evaluate
    the assertion is captured in the boolean it returns instead of being
    raised. *)
Definition honours_raise_flag : Prop :=
  forall (a : EnvAssertion) (env : Env), is_raise (run_env_assertion a false env).1 = false.


(** The two digests of every environment can be computed. *)
Definition digests_readable : Prop :=
  forall env : Env,
    is_raise (get_db_hash env) = false /\ is_raise (get_user_db_hash env) = false.

(** The call the replay loop makes for a golden action. *)
Definition golden_call (action : Action) (gold_environment : Env) : result pyval * Env :=
  make_tool_call (name action) (requestor action) (arguments action) gold_environment.


(** The warnings of a replay: one per golden action whose call raised. *)
Fixpoint golden_warnings (golden_actions : list Action) (gold_environment : Env)
  : list Event :=
  match golden_actions with
  | [] => []
  | action :: rest =>
      match (golden_call action gold_environment).1 with
      | Raise e => [warning_golden_action (name action) (arguments action) e]
      | Return _ => []
      end ++ golden_warnings rest (golden_call action gold_environment).2
  end.

(** What the environment answers to each assertion when asked not to raise,
    one after the other. *)
Fixpoint verdicts (env_assertions : list EnvAssertion) (predicted_environment : Env)
  : list bool :=
  match env_assertions with
  | [] => []
  | env_assertion :: rest =>
      match run_env_assertion env_assertion false predicted_environment with
      | (Return success, env) => success :: verdicts rest env
      | (Raise _, _) => []
      end
  end.

(** The outcome of one pass through the replay loop: the snapshot taken
    before the call is the only thing that can raise out of it. *)
Definition step_outcome (action : Action) (gold_environment : Env) : result Env :=
  match (if tools_is_not_none gold_environment
         then get_agent_db_state gold_environment else Return None) with
  | Return _ => Return (golden_call action gold_environment).2
  | Raise e => Raise e
  end.

Fixpoint replay_outcome (golden_actions : list Action) (gold_environment : Env)
  : result Env :=
  match golden_actions with
  | [] => Return gold_environment
  | action :: rest =>
      match step_outcome action gold_environment with
      | Return env => replay_outcome rest env
      | Raise e => Raise e
      end
  end.

(** The [RewardInfo] of lines 196-230, from the locals it is built of. *)
Definition reward_info (criteria : EvaluationCriteria) (c : Comparison)
    (env_assertion_checks : list EnvAssertionCheck) (env_assertion_reward : float)
  : RewardInfo :=
  mkRewardInfo
    (compose_reward (reward_basis criteria) (cmp_db_reward c) env_assertion_reward).1
    (Some (mkDBCheck (cmp_db_match c) (cmp_db_reward c)))
    (Some env_assertion_checks)
    (Some (reward_basis criteria))
    (Some (compose_reward (reward_basis criteria) (cmp_db_reward c) env_assertion_reward).2)
    None.

Definition evaluate_outcome (criteria : EvaluationCriteria)
    (predicted_environment gold_environment : Env) : result RewardInfo :=
  match replay_outcome (default [] (actions criteria)) gold_environment with
  | Raise e => Raise e
  | Return gold_environment =>
      match compare_hashes gold_environment predicted_environment with
      | Raise e => Raise e
      | Return c =>
          match outcome (run_env_assertions (default [] (env_assertions criteria))
                           predicted_environment [] one []) with
          | Raise e => Raise e
          | Return (checks, env_assertion_reward) =>
              Return (reward_info criteria c checks env_assertion_reward)
          end
      end
  end.

(** The outcome of [calculate_reward] past the two shortcuts. *)
Definition full_outcome (environment_constructor : option bool -> result Env)
    (task : Task) (criteria : EvaluationCriteria) (full_trajectory : list Message)
    (solo_mode : bool) : result RewardInfo :=
  match outcome (seed_environments environment_constructor task full_trajectory
                   solo_mode []) with
  | Raise e => Raise e
  | Return (predicted_environment, gold_environment) =>
      evaluate_outcome criteria predicted_environment gold_environment
  end.

(** The two environments whose digests line 138-141 read. *)
Definition compared_environments (logfire : Logfire)
    (environment_constructor : option bool -> result Env)
    (task : Task) (criteria : EvaluationCriteria) (full_trajectory : list Message)
    (solo_mode : bool) : M (Env * Env) :=
  let! (predicted_environment, gold_environment) :=
    seed_environments environment_constructor task full_trajectory solo_mode in
  let! gold_environment :=
    replay_golden_actions logfire task 0 (default [] (actions criteria))
      gold_environment in
  ret (predicted_environment, gold_environment).

(** The digests read off the pair of environments that reaches line 138. *)
Definition digests_of (environments : result (Env * Env)) : result Comparison :=
  match environments with
  | Return (predicted_environment, gold_environment) =>
      compare_hashes gold_environment predicted_environment
  | Raise e => Raise e
  end.

End Outcome.

(** * Further vocabulary: the log and the trajectory *)

Definition is_span (ev : Event) : bool :=
  match ev with span_emitted _ => true | _ => false end.

(** What loguru receives: the log without the Logfire spans. *)
Definition loguru (log : list Event) : list Event :=
  List.filter (fun ev => negb (is_span ev)) log.

(** The tool calls of the assistant and user messages of a trajectory, in
    order. *)
Definition trajectory_tool_calls (full_trajectory : list Message) : list ToolCall :=
  mjoin ((fun message =>
            if isinstance_AssistantMessage message || isinstance_UserMessage message
            then default [] (tool_calls message) else []) <$> full_trajectory).

(** A basis selects a signal, and the signal passed. *)
Definition signals_pass (reward_basis : list RewardType) (ri : RewardInfo) : Prop :=
  (DB ∈ reward_basis -> exists dbc, db_check ri = Some dbc /\ db_match dbc = true)
  /\ (ENV_ASSERTION ∈ reward_basis ->
      forall c, c ∈ default [] (ri_env_assertions ri) -> met c = true).

(** Every float a [RewardInfo] carries is 0.0 or 1.0, and the state-match
    reward agrees with the state-match flag. *)
Definition binary_rewards (ri : RewardInfo) : Prop :=
  binary (reward ri)
  /\ (forall dbc, db_check ri = Some dbc ->
      db_reward dbc = (if db_match dbc then one else zero))
  /\ (forall c, c ∈ default [] (ri_env_assertions ri) ->
      eac_reward c = (if met c then one else zero))
  /\ (forall breakdown kind r,
      reward_breakdown ri = Some breakdown -> breakdown !! kind = Some r -> binary r).

(** One computation does what another does and may log spans besides: on
    any two logs they have the same outcome, and what the second appends is
    what the first appends without its spans. *)
Definition adds_spans {A} (m m0 : M A) : Prop :=
  forall log log0, exists r evs,
    m log = (r, log ++ evs) /\ m0 log0 = (r, log0 ++ loguru evs).

(** * tau2/logfire_setup.py *)

Module LogfireSetup.

(** The constants the module reads from tau2.config, which is outside the
    files modelled here. [LOGFIRE_TOKEN] is what
    [getattr(config, "LOGFIRE_TOKEN", None)] gives. *)
Record Settings : Type := mkSettings {
  USE_LOGFIRE : bool;
  LOGFIRE_SCRUBBING : pyval;
  LOGFIRE_TOKEN : option string
}.

(** The globals of the module and the one environment variable it writes. *)
Record process : Type := mkProcess {
  configured : bool;                       (* _logfire_configured *)
  environ_LOGFIRE_TOKEN : option string;   (* os.environ.get("LOGFIRE_TOKEN") *)
  _LOGFIRE_DEBUG : bool
}.

(** The outcomes of the library calls of one call into the module. *)
Record Library : Type := mkLibrary {
  import_logfire_module : result unit;
  configure : pyval -> result unit;
  instrument_litellm : result unit;
  force_flush : Z -> result pyval;
  add_loguru_sink : string -> result unit
}.

Inductive debug_line : Type :=
  | already_configured
  | init_status (use_logfire : bool) (token_set : bool) (enabled : pyval)
  | disabled_not_configuring
  | calling_configure
  | configure_ok
  | instrument_ok
  | instrument_failed (e : exn)
  | init_done
  | init_failed (e : exn)
  | flush_called (is_configured : bool)
  | flush_not_configured
  | calling_force_flush (timeout_millis : Z)
  | force_flush_returned (ok : pyval)
  | flush_failed (e : exn)
  | add_handler_called (is_configured : bool)
  | handler_added
  | add_handler_failed (e : exn).

Inductive setup_event : Type :=
  | stderr (line : debug_line)
  | imported (r : result unit)
  | configure_called (scrubbing : pyval) (r : result unit)
  | instrument_litellm_called (r : result unit)
  | force_flush_called (timeout_millis : Z) (r : result pyval)
  | add_loguru_sink_called (level : string) (r : result unit).

(** Truth value of [os.environ.get(...)]: a missing or empty variable is
    false. *)
Definition truthy (value : option string) : bool :=
  match value with
  | Some s => negb (String.eqb s "")
  | None => false
  end.

(** Lines 25-32: what importing the module does to the environment. *)
Definition import_module (settings : Settings) (environ_token : option string)
    (debug : bool) : process :=
  mkProcess false
    (if truthy (LOGFIRE_TOKEN settings) && negb (truthy environ_token)
     then LOGFIRE_TOKEN settings else environ_token)
    debug.

(** [_debug]. *)
Definition _debug (p : process) (line : debug_line) : list setup_event :=
  if _LOGFIRE_DEBUG p then [stderr line] else [].

(** [USE_LOGFIRE or os.environ.get("LOGFIRE_TOKEN")]: Python's [or] gives its
    first operand when it is true and its second otherwise. *)
Definition enabled_value (settings : Settings) (p : process) : pyval :=
  if USE_LOGFIRE settings then PyBool true
  else match environ_LOGFIRE_TOKEN p with
       | Some s => PyStr s
       | None => PyNone
       end.

Definition enabled (settings : Settings) (p : process) : bool :=
  USE_LOGFIRE settings || truthy (environ_LOGFIRE_TOKEN p).

(** [init_logfire]: the returned boolean, the process after the call and what
    the call did. *)
Definition init_logfire (settings : Settings) (lib : Library) (p : process)
  : bool * process * list setup_event :=
  if configured p then (true, p, _debug p already_configured)
  else
    let status :=
      _debug p (init_status (USE_LOGFIRE settings)
                  (truthy (environ_LOGFIRE_TOKEN p)) (enabled_value settings p)) in
    if negb (enabled settings p)
    then (false, p, status ++ _debug p disabled_not_configuring)
    else
      match import_logfire_module lib with
      | Raise e => (false, p, status ++ [imported (Raise e)] ++ _debug p (init_failed e))
      | Return _ =>
          let before :=
            status ++ [imported (Return tt)] ++ _debug p calling_configure in
          match configure lib (LOGFIRE_SCRUBBING settings) with
          | Raise e =>
              (false, p,
               before ++ [configure_called (LOGFIRE_SCRUBBING settings) (Raise e)]
               ++ _debug p (init_failed e))
          | Return _ =>
              let instrument :=
                match instrument_litellm lib with
                | Return _ =>
                    [instrument_litellm_called (Return tt)] ++ _debug p instrument_ok
                | Raise e =>
                    [instrument_litellm_called (Raise e)]
                    ++ _debug p (instrument_failed e)
                end in
              (true,
               mkProcess true (environ_LOGFIRE_TOKEN p) (_LOGFIRE_DEBUG p),
               before ++ [configure_called (LOGFIRE_SCRUBBING settings) (Return tt)]
               ++ _debug p configure_ok ++ instrument ++ _debug p init_done)
          end
      end.

(** [is_logfire_enabled]. *)
Definition is_logfire_enabled (p : process) : bool := configured p.

(** [flush_logfire]. *)
Definition flush_logfire (lib : Library) (timeout_millis : Z) (p : process)
  : process * list setup_event :=
  let called := _debug p (flush_called (configured p)) in
  if negb (configured p) then (p, called ++ _debug p flush_not_configured)
  else
    match import_logfire_module lib with
    | Raise e => (p, called ++ [imported (Raise e)] ++ _debug p (flush_failed e))
    | Return _ =>
        let before :=
          called ++ [imported (Return tt)]
          ++ _debug p (calling_force_flush timeout_millis) in
        match force_flush lib timeout_millis with
        | Return ok =>
            (p, before ++ [force_flush_called timeout_millis (Return ok)]
                ++ _debug p (force_flush_returned ok))
        | Raise e =>
            (p, before ++ [force_flush_called timeout_millis (Raise e)]
                ++ _debug p (flush_failed e))
        end
    end.

(** [add_loguru_handler]. *)
Definition add_loguru_handler (lib : Library) (log_level : string) (p : process)
  : process * list setup_event :=
  let called := _debug p (add_handler_called (configured p)) in
  if negb (configured p) then (p, called)
  else
    match import_logfire_module lib with
    | Raise e => (p, called ++ [imported (Raise e)] ++ _debug p (add_handler_failed e))
    | Return _ =>
        match add_loguru_sink lib log_level with
        | Return _ =>
            (p, called ++ [imported (Return tt)]
                ++ [add_loguru_sink_called log_level (Return tt)]
                ++ _debug p handler_added)
        | Raise e =>
            (p, called ++ [imported (Return tt)]
                ++ [add_loguru_sink_called log_level (Raise e)]
                ++ _debug p (add_handler_failed e))
        end
    end.

(** A call into the module, with the behaviour of the library during it. *)
Inductive call_of : Type :=
  | call_init_logfire (lib : Library)
  | call_flush_logfire (lib : Library) (timeout_millis : Z)
  | call_add_loguru_handler (lib : Library) (log_level : string).

Definition step (settings : Settings) (c : call_of) (p : process)
  : process * list setup_event :=
  match c with
  | call_init_logfire lib =>
      ((init_logfire settings lib p).1.2, (init_logfire settings lib p).2)
  | call_flush_logfire lib timeout_millis => flush_logfire lib timeout_millis p
  | call_add_loguru_handler lib log_level => add_loguru_handler lib log_level p
  end.

(** A sequence of calls, in program order. *)
Fixpoint run (settings : Settings) (calls : list call_of) (p : process)
  : process * list setup_event :=
  match calls with
  | [] => (p, [])
  | c :: rest =>
      let '(p1, evs1) := step settings c p in
      let '(p2, evs2) := run settings rest p1 in
      (p2, evs1 ++ evs2)
  end.

(** The call is an [init_logfire] during which the import and
    [logfire.configure] both succeed. *)
Definition configures (settings : Settings) (c : call_of) : bool :=
  match c with
  | call_init_logfire lib =>
      negb (is_raise (import_logfire_module lib))
      && negb (is_raise (configure lib (LOGFIRE_SCRUBBING settings)))
  | _ => false
  end.

Definition is_library_call (ev : setup_event) : bool :=
  match ev with stderr _ => false | _ => true end.

Definition is_configure_success (ev : setup_event) : bool :=
  match ev with configure_called _ (Return _) => true | _ => false end.

(** The status line shows this string. *)
Definition status_shows (s : string) (ev : setup_event) : Prop :=
  exists use_logfire token_set, ev = stderr (init_status use_logfire token_set (PyStr s)).

End LogfireSetup.

(** * tau2/utils/utils.py: [_make_diff_serializable] *)

Module Serializable.

(** The objects a diff may contain. A set and any other iterable are given
    by their items in iteration order; an iterable whose iteration raises
    [TypeError] has no items; dictionary keys are any hashable object. *)
#[local] Unset Elimination Schemes.
Inductive obj : Type :=
  | ONone
  | OBool (b : bool)
  | OInt (z : Z)
  | OFloat (f : float)
  | OStr (s : string)
  | OBytes (s : string)
  | OList (items : list obj)
  | OTuple (items : list obj)
  | OSet (items : list obj)
  | ODict (entries : list (obj * obj))
  | OIterable (items : option (list obj))
  | OOpaque (type_name : string).
#[local] Set Elimination Schemes.

Section Sorted.

(** [str], the key of [sorted(obj, key=str)]; strings compare by code point,
    which for UTF-8 is the order of the bytes. *)
Variable str : obj -> string.

(** [sorted(..., key=str)] is stable: an item goes before the first item
    whose key is not smaller. *)
Fixpoint insert_by_str (x : obj) (sorted : list obj) : list obj :=
  match sorted with
  | [] => [x]
  | y :: rest =>
      if String.leb (str x) (str y) then x :: y :: rest
      else y :: insert_by_str x rest
  end.

Definition sorted_by_str (items : list obj) : list obj :=
  fold_right insert_by_str [] items.

(** The same sort on items that carry a value along. *)
Fixpoint insert_keyed {A} (x : obj * A) (sorted : list (obj * A)) : list (obj * A) :=
  match sorted with
  | [] => [x]
  | y :: rest =>
      if String.leb (str x.1) (str y.1) then x :: y :: rest
      else y :: insert_keyed x rest
  end.

Definition sorted_keyed {A} (items : list (obj * A)) : list (obj * A) :=
  fold_right insert_keyed [] items.

(** [_make_diff_serializable]. For a set the source sorts the items and then
    converts each; here each item is converted next to itself and the pairs
    are sorted on the item, which is the same list (see
    [make_diff_serializable_set]). *)
Fixpoint _make_diff_serializable (o : obj) : obj :=
  match o with
  | ODict entries =>
      ODict (List.map (fun kv => (kv.1, _make_diff_serializable kv.2)) entries)
  | OList items | OTuple items => OList (List.map _make_diff_serializable items)
  | OSet items =>
      OList (List.map snd
               (sorted_keyed
                  (List.map (fun v => (v, _make_diff_serializable v)) items)))
  | OIterable (Some items) => OList (List.map _make_diff_serializable items)
  | _ => o
  end.

End Sorted.

(** No set, tuple or iterable is left where a value stands: in the object
    itself, in the items of a list, in the values of a dictionary. *)
Fixpoint plain (o : obj) : bool :=
  match o with
  | OList items => forallb plain items
  | ODict entries => forallb (fun kv => plain kv.2) entries
  | OTuple _ | OSet _ | OIterable (Some _) => false
  | _ => true
  end.

(** The order [sorted(..., key=str)] leaves the items in. *)
Definition in_str_order (str : obj -> string) (x y : obj) : Prop :=
  String.leb (str x) (str y) = true.

(** Structural induction on objects, through the lists they nest. *)
Section Induction.

Variable P : obj -> Prop.
Hypothesis Hnone : P ONone.
Hypothesis Hbool : forall b, P (OBool b).
Hypothesis Hint : forall z, P (OInt z).
Hypothesis Hfloat : forall f, P (OFloat f).
Hypothesis Hstr : forall s, P (OStr s).
Hypothesis Hbytes : forall s, P (OBytes s).
Hypothesis Hlist : forall items, Forall P items -> P (OList items).
Hypothesis Htuple : forall items, Forall P items -> P (OTuple items).
Hypothesis Hset : forall items, Forall P items -> P (OSet items).
Hypothesis Hdict :
  forall entries, Forall (fun kv => P kv.2) entries -> P (ODict entries).
Hypothesis Hiterable : forall items, Forall P items -> P (OIterable (Some items)).
Hypothesis Hbroken : P (OIterable None).
Hypothesis Hopaque : forall t, P (OOpaque t).

Fixpoint obj_induction (o : obj) : P o :=
  let all :=
    fix all (items : list obj) : Forall P items :=
      match items with
      | [] => @List.Forall_nil _ P
      | x :: rest => @List.Forall_cons _ P x rest (obj_induction x) (all rest)
      end in
  match o with
  | ONone => Hnone
  | OBool b => Hbool b
  | OInt z => Hint z
  | OFloat f => Hfloat f
  | OStr s => Hstr s
  | OBytes s => Hbytes s
  | OList items => Hlist items (all items)
  | OTuple items => Htuple items (all items)
  | OSet items => Hset items (all items)
  | ODict entries =>
      Hdict entries
        ((fix values (entries : list (obj * obj))
            : Forall (fun kv => P kv.2) entries :=
            match entries with
            | [] => @List.Forall_nil _ _
            | kv :: rest =>
                @List.Forall_cons _ (fun kv => P kv.2) kv rest (obj_induction kv.2) (values rest)
            end) entries)
  | OIterable (Some items) => Hiterable items (all items)
  | OIterable None => Hbroken
  | OOpaque t => Hopaque t
  end.

End Induction.

End Serializable.

(** * tau2.utils.llm_utils *)

Module LlmUtils.

(** A Python [str] whose characters matter is a sequence of code points. *)
Definition char : Type := N.
Definition pystr : Type := list char.

(** An ASCII literal as a [str]. *)
Fixpoint py (s : string) : pystr :=
  match s with
  | EmptyString => []
  | String a rest => Ascii.N_of_ascii a :: py rest
  end.

(** ** The part of [re] that the pattern of [_parse_ft_model_name] uses

    A pattern is a sequence of literal characters and named groups of the
    form [(?P<name>C+)] for a character class [C]. [re.match] anchors the
    pattern at the start of the string; [+] is greedy, it first takes every
    character it can and gives them back one at a time, down to one, until the
    rest of the pattern matches. *)
Inductive item : Type :=
  | Lit (c : char)
  | Plus (name : string) (accepts : char -> bool).

(** A match object: the named groups, in the order of the pattern. *)
Definition Match : Type := list (string * pystr).

(** How many characters of the class the string starts with. *)
Fixpoint span (accepts : char -> bool) (s : pystr) : nat :=
  match s with
  | c :: rest => if accepts c then S (span accepts rest) else 0
  | [] => 0
  end.

(** The first success of [attempt n], [attempt (n - 1)], ..., [attempt 1]. *)
Fixpoint longest_first {A} (n : nat) (attempt : nat -> option A) : option A :=
  match n with
  | 0 => None
  | S m =>
      match attempt (S m) with
      | Some r => Some r
      | None => longest_first m attempt
      end
  end.

Fixpoint re_match (pattern : list item) (s : pystr) : option Match :=
  match pattern with
  | [] => Some []
  | Lit c :: pattern =>
      match s with
      | x :: s => if (x =? c)%N then re_match pattern s else None
      | [] => None
      end
  | Plus name accepts :: pattern =>
      longest_first (span accepts s)
        (fun k =>
           match re_match pattern (drop k s) with
           | Some groups => Some ((name, take k s) :: groups)
           | None => None
           end)
  end.

(** [Match.group(name)]; a name the pattern does not have raises. *)
Definition group (name : string) (m : Match) : result pystr :=
  match List.find (fun g => String.eqb g.1 name) m with
  | Some g => Return g.2
  | None => Raise (Exception "IndexError: no such group")
  end.

Section Parse.

(** [\w] is [[a-zA-Z0-9_]] on ASCII; beyond ASCII it is what the Unicode
    database calls alphanumeric. *)
Variable unicode_alnum : char -> bool.

Definition word (c : char) : bool :=
  if (c <? 128)%N then
    ((48 <=? c) && (c <=? 57) || (65 <=? c) && (c <=? 90)
     || (97 <=? c) && (c <=? 122) || (c =? 95))%N
  else unicode_alnum c.

Definition colon : char := 58%N.

Definition not_colon (c : char) : bool := negb (c =? colon)%N.

(** [r"ft:(?P<model>[^:]+):(?P<provider>\w+)::(?P<id>\w+)"] *)
Definition pattern : list item :=
  (Lit <$> py "ft:") ++ [Plus "model" not_colon]
  ++ (Lit <$> py ":") ++ [Plus "provider" word]
  ++ (Lit <$> py "::") ++ [Plus "id" word].

Definition _parse_ft_model_name (model : pystr) : result pystr :=
  match re_match pattern model with
  | Some m => group "model" m
  | None => Return model
  end.

(** The names the pattern matches: [ft:<model>:<provider>::<id>] followed by
    anything, with a non-empty colon-free model, a non-empty provider of word
    characters and an id that starts with a word character. *)
Definition fine_tuned (name model : pystr) : Prop :=
  exists provider id_start rest,
    name = py "ft:" ++ model ++ colon :: provider ++ colon :: colon :: id_start :: rest
    /\ model <> [] /\ forallb not_colon model = true
    /\ provider <> [] /\ forallb word provider = true
    /\ word id_start = true.

(** ** Costs and token counts of a response *)

(** [usage.prompt_tokens_details]; an attribute that is missing reads as
    [None] through [getattr(details, ..., None)]. *)
Record PromptTokensDetails : Type := mkPromptTokensDetails {
  cached_tokens : option Z;
  cache_creation_tokens : option Z
}.

Record Usage : Type := mkUsage {
  completion_tokens : option Z;
  prompt_tokens : option Z;
  prompt_tokens_details : option PromptTokensDetails
}.

(** litellm's [ModelResponse]; its [model] is [None] until one is set. *)
Record ModelResponse : Type := mkModelResponse {
  model : option pystr;
  usage : option Usage
}.

(** [_parse_ft_model_name(response.model)]: [re.match] (line 82) raises
    [TypeError] on a model that is [None]. *)
Definition parse_model (model : option pystr) : result pystr :=
  match model with
  | Some name => _parse_ft_model_name name
  | None => Raise (Exception "TypeError: expected string or bytes-like object")
  end.

(** What the functions of this module write to the loguru logger. *)
Inductive line : Type :=
  | error (e : exn)
  | debug_cache_aware_cost (e : exn)
  | warning_no_cost (message : Message)
  | warning_no_usage (message : Message).

(** litellm's price functions. *)
Variable completion_cost : ModelResponse -> result float.
Variable cost_per_token : pystr -> Z -> Z -> result (float * float).

(** [get_response_cost]: the cost, the response with its [model] replaced, and
    the lines logged. *)
Definition get_response_cost (response : ModelResponse)
  : result (float * ModelResponse) * list line :=
  match parse_model (model response) with
  | Raise e => (Raise e, [])
  | Return parsed =>
      let response := mkModelResponse (Some parsed) (usage response) in
      match completion_cost response with
      | Return cost => (Return (cost, response), [])
      | Raise e => (Return (zero, response), [error e])
      end
  end.

(** [x or 0] on an optional integer. *)
Definition or_0 (x : option Z) : Z :=
  match x with Some n => n | None => 0 end.

Definition get_response_cost_cache_aware (response : ModelResponse)
  : result (option float) * list line :=
  match usage response with
  | None => (Return None, [])
  | Some usage =>
      match prompt_tokens_details usage with
      | None => (Return None, [])
      | Some details =>
          match cache_creation_tokens details with
          | None => (Return None, [])
          | Some cache_creation =>
              match parse_model (model response) with
              | Raise e => (Raise e, [])
              | Return model =>
                  let comp := or_0 (completion_tokens usage) in
                  match cost_per_token model cache_creation comp with
                  | Return (input_cost, output_cost) =>
                      (Return (Some (input_cost + output_cost)%float), [])
                  | Raise e => (Return None, [debug_cache_aware_cost e])
                  end
              end
          end
      end
  end.

(** The usage dictionary stored on a message: token counts by name. *)
Definition usage_dict : Type := gmap string (option Z).

Definition get_response_usage (response : ModelResponse) : option usage_dict :=
  match usage response with
  | None => None
  | Some usage =>
      let out : usage_dict :=
        {[ "completion_tokens" := completion_tokens usage;
           "prompt_tokens" := prompt_tokens usage ]} in
      match prompt_tokens_details usage with
      | Some details =>
          let out :=
            match cached_tokens details with
            | Some cached => <["cached_tokens" := Some cached]> out
            | None => out
            end in
          let out :=
            match cache_creation_tokens details with
            | Some cache_creation => <["cache_creation_tokens" := Some cache_creation]> out
            | None => out
            end in
          Some out
      | None => Some out
      end
  end.

End Parse.


(** ** Conversions between tau2 messages and litellm dictionaries *)

(** [d[key]] on a dictionary. *)
Definition getitem (key : string) (d : pydict) : result pyval :=
  match List.find (fun kv => String.eqb kv.1 key) d with
  | Some kv => Return kv.2
  | None => Raise (Exception "KeyError")
  end.

(** [d.get(key)], as an optional value. *)
Definition get (key : string) (d : pydict) : option pyval :=
  match List.find (fun kv => String.eqb kv.1 key) d with
  | Some kv => Some kv.2
  | None => None
  end.

Section Conversions.

(** The pydantic constructors, called with the dictionary as keyword
    arguments. *)
Variable new_UserMessage new_AssistantMessage new_ToolMessage new_SystemMessage
  : pydict -> result Message.

(** [role in ignore_roles]: membership in a set hashes the role first. *)
Definition role_in (role : pyval) (ignore_roles : gset string) : result bool :=
  match role with
  | PyStr s => Return (bool_decide (s ∈ ignore_roles))
  | PyList _ | PyDict _ => Raise (Exception "TypeError: unhashable type")
  | _ => Return false
  end.

(** [role == "..."] against a string literal. *)
Definition eq_str (v : pyval) (s : string) : bool :=
  match v with PyStr s' => String.eqb s' s | _ => false end.

Fixpoint to_tau2_messages_loop (messages : list pydict) (ignore_roles : gset string)
    (tau2_messages : list Message) : result (list Message) :=
  match messages with
  | [] => Return tau2_messages
  | message :: rest =>
      match getitem "role" message with
      | Raise e => Raise e
      | Return role =>
          match role_in role ignore_roles with
          | Raise e => Raise e
          | Return true => to_tau2_messages_loop rest ignore_roles tau2_messages
          | Return false =>
              let append (built : result Message) :=
                match built with
                | Return m => to_tau2_messages_loop rest ignore_roles (tau2_messages ++ [m])
                | Raise e => Raise e
                end in
              if eq_str role "user" then append (new_UserMessage message)
              else if eq_str role "assistant" then
                append (new_AssistantMessage message)
              else if eq_str role "tool" then append (new_ToolMessage message)
              else if eq_str role "system" then
                append (new_SystemMessage message)
              else Raise (Exception "ValueError: Unknown message type")
          end
      end
  end.

Definition to_tau2_messages (messages : list pydict) (ignore_roles : gset string)
  : result (list Message) :=
  to_tau2_messages_loop messages ignore_roles [].

(** [json.dumps] on the arguments of a tool call. *)
Variable json_dumps : pydict -> string.

(** An optional string as a value. *)
Definition content_value (content : option string) : pyval :=
  match content with Some s => PyStr s | None => PyNone end.

Definition content (message : Message) : option string :=
  match message with
  | SystemMessage content | AssistantMessage content _
  | UserMessage content _ | ToolMessage _ content _ => content
  end.

Definition litellm_tool_call (tc : ToolCall) : pyval :=
  PyDict
    [("id", PyStr (tc_id tc));
     ("name", PyStr (tc_name tc));
     ("function",
      PyDict [("name", PyStr (tc_name tc));
              ("arguments", PyStr (json_dumps (tc_arguments tc)))]);
     ("type", PyStr "function")].

(** The comprehension over [message.tool_calls]; iterating [None] raises. *)
Definition litellm_tool_calls (calls : option (list ToolCall)) : result pyval :=
  match calls with
  | Some calls => Return (PyList (litellm_tool_call <$> calls))
  | None => Raise (Exception "TypeError: 'NoneType' object is not iterable")
  end.

Fixpoint to_litellm_messages_loop (messages : list Message)
    (litellm_messages : list pydict) : result (list pydict) :=
  match messages with
  | [] => Return litellm_messages
  | message :: rest =>
      match message with
      | UserMessage content _ =>
          to_litellm_messages_loop rest
            (litellm_messages ++ [[("role", PyStr "user"); ("content", content_value content)]])
      | AssistantMessage content _ =>
          let tool_calls :=
            if is_tool_call message then litellm_tool_calls (tool_calls message)
            else Return PyNone in
          match tool_calls with
          | Raise e => Raise e
          | Return tool_calls =>
              to_litellm_messages_loop rest
                (litellm_messages
                 ++ [[("role", PyStr "assistant"); ("content", content_value content);
                      ("tool_calls", tool_calls)]])
          end
      | ToolMessage id content _ =>
          to_litellm_messages_loop rest
            (litellm_messages
             ++ [[("role", PyStr "tool"); ("content", content_value content);
                  ("tool_call_id", PyStr id)]])
      | SystemMessage content =>
          to_litellm_messages_loop rest
            (litellm_messages ++ [[("role", PyStr "system"); ("content", content_value content)]])
      end
  end.

Definition to_litellm_messages (messages : list Message) : result (list pydict) :=
  to_litellm_messages_loop messages [].

(** The role a message class is sent under. *)
Definition role (message : Message) : string :=
  match message with
  | SystemMessage _ => "system"
  | AssistantMessage _ _ => "assistant"
  | UserMessage _ _ => "user"
  | ToolMessage _ _ _ => "tool"
  end.

End Conversions.

(** A message without what [to_litellm_messages] does not look at: the tool
    calls of a user message and the requestor of a tool message. *)
Definition forget (message : Message) : Message :=
  match message with
  | UserMessage content _ => UserMessage content None
  | ToolMessage id content _ => ToolMessage id content user
  | _ => message
  end.

(** The dictionaries whose role is one of [ignore_roles]. *)
Definition ignored (ignore_roles : gset string) (message : pydict) : bool :=
  match get "role" message with
  | Some (PyStr s) => bool_decide (s ∈ ignore_roles)
  | _ => false
  end.

(** ** Totals over a trajectory *)

(** A message with the bookkeeping attributes the totals read. Reading an
    attribute the class of the message does not have raises
    [AttributeError]. *)
Record Priced : Type := mkPriced {
  message : Message;
  cost : result (option float);
  cost_cache_aware : result (option float);
  usage_of : result (option usage_dict)
}.

Definition isinstance_ToolMessage (m : Message) : bool :=
  match m with ToolMessage _ _ _ => true | _ => false end.

(** A total that starts as the integer [0] and becomes a float with the first
    cost added. *)
Inductive number : Type :=
  | int_0
  | float_ (f : float).

(** [total += cost] *)
Definition iadd (total : number) (cost : float) : number :=
  match total with
  | int_0 => float_ (zero + cost)%float
  | float_ f => float_ (f + cost)%float
  end.

Fixpoint get_cost_loop (messages : list Priced) (agent_cost user_cost : number)
  : result (option (number * number)) * list line :=
  match messages with
  | [] => (Return (Some (agent_cost, user_cost)), [])
  | m :: rest =>
      if isinstance_ToolMessage (message m) then get_cost_loop rest agent_cost user_cost
      else
        match cost m with
        | Raise e => (Raise e, [])
        | Return (Some c) =>
            if isinstance_AssistantMessage (message m) then
              get_cost_loop rest (iadd agent_cost c) user_cost
            else if isinstance_UserMessage (message m) then
              get_cost_loop rest agent_cost (iadd user_cost c)
            else get_cost_loop rest agent_cost user_cost
        | Return None => (Return None, [warning_no_cost (message m)])
        end
  end.

Definition get_cost (messages : list Priced)
  : result (option (number * number)) * list line :=
  get_cost_loop messages int_0 int_0.

Fixpoint get_cost_cache_aware_loop (messages : list Priced)
    (agent_cost user_cost : float) (has_any : bool)
  : result (float * float * bool) :=
  match messages with
  | [] => Return (agent_cost, user_cost, has_any)
  | m :: rest =>
      if isinstance_ToolMessage (message m) then
        get_cost_cache_aware_loop rest agent_cost user_cost has_any
      else
        match cost_cache_aware m with
        | Raise e => Raise e
        | Return (Some c) =>
            if isinstance_AssistantMessage (message m) then
              get_cost_cache_aware_loop rest (agent_cost + c)%float user_cost true
            else if isinstance_UserMessage (message m) then
              get_cost_cache_aware_loop rest agent_cost (user_cost + c)%float true
            else get_cost_cache_aware_loop rest agent_cost user_cost true
        | Return None => get_cost_cache_aware_loop rest agent_cost user_cost has_any
        end
  end.

Definition get_cost_cache_aware (messages : list Priced)
  : result (option float * option float) :=
  match get_cost_cache_aware_loop messages zero zero false with
  | Raise e => Raise e
  | Return (agent_cost, user_cost, has_any) =>
      if negb has_any then Return (None, None)
      else Return (Some agent_cost, Some user_cost)
  end.

(** [total += usage[key]]: a missing key raises [KeyError], a count that is
    [None] raises [TypeError]. *)
Definition add_count (total : Z) (usage : usage_dict) (key : string) : result Z :=
  match usage !! key with
  | None => Raise (Exception "KeyError")
  | Some None => Raise (Exception "TypeError: unsupported operand type(s) for +=")
  | Some (Some n) => Return (total + n)%Z
  end.

Fixpoint get_token_usage_loop (messages : list Priced) (completion prompt : Z)
  : result (Z * Z) * list line :=
  match messages with
  | [] => (Return (completion, prompt), [])
  | m :: rest =>
      if isinstance_ToolMessage (message m) then get_token_usage_loop rest completion prompt
      else
        match usage_of m with
        | Raise e => (Raise e, [])
        | Return None =>
            let (r, log) := get_token_usage_loop rest completion prompt in
            (r, warning_no_usage (message m) :: log)
        | Return (Some u) =>
            match add_count completion u "completion_tokens" with
            | Raise e => (Raise e, [])
            | Return completion =>
                match add_count prompt u "prompt_tokens" with
                | Raise e => (Raise e, [])
                | Return prompt => get_token_usage_loop rest completion prompt
                end
            end
        end
  end.

Definition get_token_usage (messages : list Priced)
  : result (gmap string Z) * list line :=
  let (r, log) := get_token_usage_loop messages 0 0 in
  match r with
  | Return (completion, prompt) =>
      (Return {[ "completion_tokens" := completion; "prompt_tokens" := prompt ]}, log)
  | Raise e => (Raise e, log)
  end.

(** The messages the totals look at. *)
Definition counted (messages : list Priced) : list Priced :=
  List.filter (fun m => negb (isinstance_ToolMessage (message m))) messages.

(** A message whose cost is [None]. *)
Definition costless (m : Priced) : bool :=
  match cost m with Return None => true | _ => false end.

(** The costs of the messages of one class, in order. *)
Definition costs_of (class : Message -> bool) (messages : list Priced) : list float :=
  omap (fun m =>
          if class (message m) then
            match cost m with Return (Some c) => Some c | _ => None end
          else None)
       messages.

Definition total (costs : list float) : number := fold_left iadd costs int_0.

(** A message with a cache-aware cost. *)
Definition cache_priced (m : Priced) : Prop :=
  exists c, cost_cache_aware m = Return (Some c).

(** The cache-aware costs of the messages of one class, in order. *)
Definition cache_costs_of (class : Message -> bool) (messages : list Priced)
  : list float :=
  omap (fun m =>
          if class (message m) then
            match cost_cache_aware m with Return (Some c) => Some c | _ => None end
          else None)
       messages.

(** A message without usage. *)
Definition usageless (m : Priced) : bool :=
  match usage_of m with Return None => true | _ => false end.

Definition count_of (key : string) (m : Priced) : Z :=
  match usage_of m with
  | Return (Some u) => match u !! key with Some (Some n) => n | _ => 0 end
  | _ => 0
  end.

Definition sum (counts : list Z) : Z := foldr Z.add 0%Z counts.

(** No usage, or a usage dictionary with both counts. *)
Definition has_counts (m : Priced) : Prop :=
  usage_of m = Return None
  \/ exists u c p,
       usage_of m = Return (Some u)
       /\ u !! "completion_tokens" = Some (Some c) /\ u !! "prompt_tokens" = Some (Some p).

End LlmUtils.

(** * scripts/cost_token_ratio.py *)

Module CostTokenRatio.

Import LlmUtils.

(** [u.get(key) or 0] *)
Definition get_or_0 (u : usage_dict) (key : string) : Z :=
  match u !! key with
  | Some (Some n) => n
  | _ => 0
  end.

Definition _weighted_tokens (u : usage_dict) : Z * Z * Z * Z * Z :=
  let inp := get_or_0 u "prompt_tokens" in
  let out := get_or_0 u "completion_tokens" in
  let cached := get_or_0 u "cached_tokens" in
  let cache_creation := get_or_0 u "cache_creation_tokens" in
  let weighted := (inp + cache_creation + 6 * out)%Z in
  (inp, out, cached, cache_creation, weighted).

End CostTokenRatio.

(** * Sample data for the further properties *)

Module Samples.

(** A task that starts in the middle of a conversation: its initial state
    carries a message history in which the agent has booked a flight, and its
    criteria ask for the databases to match, with no further golden action,
    and for the booking to be there. *)
Definition history_criteria : EvaluationCriteria :=
  mkEvaluationCriteria (Some []) (Some [Ledger.booked]) [DB; ENV_ASSERTION].

Definition history_task : Task :=
  mkTask "history" (Some (mkInitialState None None (Some Ledger.agent_books)))
    (Some history_criteria).

(** Logfire not configured, with a library that would fail at every call. *)
Definition logfire_unavailable : Logfire :=
  mkLogfire false (Raise (Exception "ModuleNotFoundError: logfire"))
    (fun _ _ => Raise (Exception "DeepDiff failed"))
    (fun _ => Raise (Exception "span failed")).

(** A logfire library whose calls all succeed. *)
Definition library : LogfireSetup.Library :=
  LogfireSetup.mkLibrary (Return tt) (fun _ => Return tt) (Return tt)
    (fun _ => Return (PyBool true)) (fun _ => Return tt).

Definition settings_off : LogfireSetup.Settings :=
  LogfireSetup.mkSettings false PyNone None.

Definition process_without_token : LogfireSetup.process :=
  LogfireSetup.mkProcess false None true.

Definition process_with_token : LogfireSetup.process :=
  LogfireSetup.mkProcess false (Some "pylf_v1_us_token") true.

(** What [run_domain] calls: set up, add the loguru sink, flush. *)
Definition session : list LogfireSetup.call_of :=
  [LogfireSetup.call_init_logfire library;
   LogfireSetup.call_add_loguru_handler library "DEBUG";
   LogfireSetup.call_flush_logfire library 10000].

(** Model names; they are ASCII, so what counts as alphanumeric beyond ASCII
    does not matter. *)
Definition ascii_names : LlmUtils.char -> bool := fun _ => false.

Definition fine_tuned_name : LlmUtils.pystr :=
  LlmUtils.py "ft:gpt-4.1-mini-2025-04-14:sierra::BSQA2TFg".

Definition base_name : LlmUtils.pystr := LlmUtils.py "gpt-4.1-mini-2025-04-14".

Definition plain_name : LlmUtils.pystr := LlmUtils.py "gpt-4o".

(** A response of a fine-tuned model with a cache breakdown. *)
Definition response : LlmUtils.ModelResponse :=
  LlmUtils.mkModelResponse (Some fine_tuned_name)
    (Some (LlmUtils.mkUsage (Some 7%Z) (Some 100%Z)
             (Some (LlmUtils.mkPromptTokensDetails (Some 60%Z) (Some 30%Z))))).

Definition response_usage : LlmUtils.usage_dict :=
  <["cache_creation_tokens" := Some 30%Z]>
    (<["cached_tokens" := Some 60%Z]>
       {[ "completion_tokens" := Some 7%Z; "prompt_tokens" := Some 100%Z ]}).

(** A short trajectory: a user turn, an assistant turn that calls a tool, the
    tool message, which has no bookkeeping attributes, and the answer. *)
Definition user_turn : LlmUtils.Priced :=
  LlmUtils.mkPriced (UserMessage (Some "Book F1, please.") None)
    (Return (Some 0.25%float)) (Return (Some 0.0625%float))
    (Return (Some {[ "completion_tokens" := Some 5%Z; "prompt_tokens" := Some 40%Z ]})).

Definition agent_turn : LlmUtils.Priced :=
  LlmUtils.mkPriced
    (AssistantMessage None
       (Some [mkToolCall "call_1" "book_flight" [("flight_id", PyStr "F1")] assistant]))
    (Return (Some 0.5%float)) (Return (Some 0.125%float))
    (Return (Some response_usage)).

Definition tool_turn : LlmUtils.Priced :=
  LlmUtils.mkPriced (ToolMessage "call_1" (Some "ok") assistant)
    (Raise (Exception "AttributeError: cost"))
    (Raise (Exception "AttributeError: cost_cache_aware"))
    (Raise (Exception "AttributeError: usage")).

Definition answer_turn : LlmUtils.Priced :=
  LlmUtils.mkPriced (AssistantMessage (Some "Done.") None)
    (Return (Some 0.5%float)) (Return None) (Return None).

Definition conversation : list LlmUtils.Priced :=
  [user_turn; agent_turn; tool_turn; answer_turn].

End Samples.

(** * Properties *)

(** ** Float and monad facts *)

Lemma one_neq_zero : one <> zero.
Proof.
  intros H.
  assert (Hb : PrimFloat.eqb one one = PrimFloat.eqb one zero) by (rewrite <- H; reflexivity).
  vm_compute in Hb. discriminate.
Qed.

Lemma binary_mul (a b : float) : binary a -> binary b -> binary (mul a b).
Proof. intros [-> | ->] [-> | ->]; vm_compute; auto. Qed.

Lemma mul_zero_r (a : float) : binary a -> mul a zero = zero.
Proof. intros [-> | ->]; reflexivity. Qed.

Lemma fold_mul_binary (rewards : list float) :
  forall acc, binary acc -> Forall binary rewards -> binary (fold_left mul rewards acc).
Proof.
  induction rewards as [| r rest IH]; intros acc Hacc Hall; simpl; [exact Hacc |].
  inversion Hall; subst. apply IH; [apply binary_mul |]; assumption.
Qed.

(** A single 0.0 among the factors makes the product 0.0. *)
Lemma fold_mul_zero (rewards : list float) :
  forall acc, binary acc -> Forall binary rewards -> zero ∈ rewards ->
    fold_left mul rewards acc = zero.
Proof.
  induction rewards as [| r rest IH]; intros acc Hacc Hall Hin; simpl.
  - inversion Hin.
  - inversion Hall as [| ? ? Hr Hrest]; subst.
    apply elem_of_cons in Hin as [<- | Hin].
    + rewrite mul_zero_r by assumption.
      clear -Hrest. induction rest as [| x xs IHxs]; simpl; [reflexivity |].
      inversion Hrest as [| ? ? Hx Hxs]; subst.
      destruct Hx as [-> | ->]; apply IHxs; assumption.
    + apply IH; [apply binary_mul | |]; assumption.
Qed.

Lemma fold_mul_ones (rewards : list float) :
  (forall r, r ∈ rewards -> r = one) -> fold_left mul rewards one = one.
Proof.
  induction rewards as [| r rest IH]; intros Hall; simpl; [reflexivity |].
  rewrite (Hall r) by (left). change (mul one one) with one.
  apply IH. intros x Hx. apply Hall. right. exact Hx.
Qed.

(** The scalar reward is the product of the selected signals, and the
    breakdown has an entry exactly for each of them. *)
Lemma compose_reward_spec (reward_basis : list RewardType)
    (db_reward env_assertion_reward : float) :
  (compose_reward reward_basis db_reward env_assertion_reward).1
  = product (selected_signals reward_basis db_reward env_assertion_reward)
  /\ forall kind,
       (compose_reward reward_basis db_reward env_assertion_reward).2 !! kind
       = selected_entry reward_basis db_reward env_assertion_reward kind.
Proof.
  unfold compose_reward, selected_signals, selected_entry, product.
  destruct (bool_decide (DB ∈ reward_basis)),
           (bool_decide (ENV_ASSERTION ∈ reward_basis)); simpl.
  all: split; [reflexivity |]; intros []; simplify_map_eq; reflexivity.
Qed.

Section Properties.

Context {Env : Type} `{!Environment Env}.

Implicit Types (logfire : Logfire) (task : Task) (log : list Event) (e : exn).

(** The guard of lines 82-85 keeps [extend] from ever seeing [None]: the
    extraction loop returns, and leaves the log as it found it. *)
Lemma extract_tool_calls_returns (full_trajectory : list Message) :
  forall predicted_tool_calls log,
    exists calls,
      extract_tool_calls full_trajectory predicted_tool_calls log = (Return calls, log).
Proof.
  induction full_trajectory as [| message rest IH]; intros acc log; simpl.
  - exists acc. reflexivity.
  - destruct message as [c | c [calls |] | c [calls |] | i c r]; simpl; try apply IH.
    all: unfold bind, call; simpl; apply IH.
Qed.

Lemma seed_environments_extraction
    (environment_constructor : option bool -> result Env) task
    (full_trajectory : list Message) (solo_mode : bool) log :
  seed_environments environment_constructor task full_trajectory solo_mode log
  = seed_environments_without_extraction environment_constructor task
      full_trajectory solo_mode log.
Proof.
  unfold seed_environments, seed_environments_without_extraction, bind, call.
  destruct (environment_constructor (Some solo_mode)) as [p0 | e]; [| reflexivity].
  destruct (method _ log) as [[[u p] | e] log1]; [| reflexivity].
  destruct (extract_tool_calls_returns full_trajectory [] log1) as [calls ->].
  reflexivity.
Qed.

(** ** Frames: what the steps do to the log *)

Lemma method_frame {A} (r : result A * Env) log :
  method r log = (outcome (method r []), log).
Proof. unfold method, outcome. destruct r as [[a | e] env]; reflexivity. Qed.

Lemma seed_environments_frame
    (environment_constructor : option bool -> result Env) task
    (full_trajectory : list Message) (solo_mode : bool) log :
  seed_environments environment_constructor task full_trajectory solo_mode log
  = (outcome (seed_environments environment_constructor task full_trajectory
                solo_mode []), log).
Proof.
  rewrite !seed_environments_extraction.
  unfold seed_environments_without_extraction, outcome, bind, call.
  destruct (environment_constructor (Some solo_mode)) as [p0 | e]; [| reflexivity].
  rewrite (method_frame _ log), (method_frame _ []). unfold outcome.
  destruct (method _ []) as [[[u p] | e] l0]; simpl; [| reflexivity].
  destruct (environment_constructor None) as [g0 | e]; [| reflexivity].
  rewrite (method_frame _ log), (method_frame _ []). unfold outcome.
  destruct (method _ []) as [[[u' g] | e] l1]; reflexivity.
Qed.

Lemma run_env_assertions_frame (env_assertions : list EnvAssertion) :
  forall (predicted_environment : Env) checks (acc : float) log,
    run_env_assertions env_assertions predicted_environment checks acc log
    = (outcome (run_env_assertions env_assertions predicted_environment checks acc []),
       log).
Proof.
  induction env_assertions as [| a rest IH]; intros pred checks acc log; simpl.
  - reflexivity.
  - unfold bind, outcome.
    rewrite (method_frame _ log), (method_frame _ []). unfold outcome.
    destruct (method _ []) as [[[success env] | e] l0]; simpl; [| reflexivity].
    rewrite IH. reflexivity.
Qed.

Lemma log_mismatch_returns task (c : Comparison) log :
  exists log', log_mismatch task c log = (Return tt, log').
Proof.
  unfold log_mismatch, bind, emit, ret.
  destruct (agent_db_match c), (user_db_match c); simpl; eauto.
Qed.

Lemma log_db_check_returns logfire task (c : Comparison) (gold pred : Env) log :
  exists log', log_db_check logfire task c gold pred log = (Return tt, log').
Proof.
  unfold log_db_check.
  destruct (is_logfire_enabled logfire); [| unfold ret; eauto].
  unfold try_except.
  match goal with |- context [match ?b log with _ => _ end] =>
    destruct (b log) as [[[] | e] log'] end; unfold ret; eauto.
Qed.

(** ** The replay loop *)

Lemma warnings_app log log' : warnings (log ++ log') = warnings log ++ warnings log'.
Proof. apply List.filter_app. Qed.

(** The Logfire block after a golden action returns and logs no warning. *)
Lemma log_golden_action_quiet logfire task (step_index : nat) (action : Action)
    (agent_db_before_gold : option pydict) (gold : Env) log :
  exists log',
    log_golden_action logfire task step_index action agent_db_before_gold gold log
    = (Return tt, log')
    /\ warnings log' = warnings log.
Proof.
  unfold log_golden_action.
  destruct (_ && _); [| exists log; split; reflexivity].
  unfold try_except, bind, call, emit, ret.
  destruct (import_logfire logfire); [| eauto].
  destruct (get_agent_db_state gold) as [after |]; [| eauto].
  destruct (dict_diff_for_logging _ _ _) as [diff |]; [| eauto].
  destruct (span logfire _) as [[] |]; [| eauto].
  eexists. split; [reflexivity |].
  rewrite warnings_app. simpl. apply app_nil_r.
Qed.

(** One pass through the loop: its outcome is [step_outcome], and when the
    snapshot before the call succeeds the log gains a warning exactly when
    the call raised. *)
Lemma golden_step_spec logfire task (step_index : nat) (action : Action)
    (gold : Env) log :
  exists log',
    golden_step logfire task step_index action gold log
    = (step_outcome action gold, log')
    /\ (is_raise (step_outcome action gold) = false ->
        warnings log' = warnings log ++ golden_warnings [action] gold).
Proof.
  unfold golden_step, step_outcome, bind at 1. fold (golden_call action gold).
  assert (Hbefore : exists r,
    (if tools_is_not_none gold then call (get_agent_db_state gold) else ret None) log
    = (r, log)
    /\ r = (if tools_is_not_none gold then get_agent_db_state gold else Return None)).
  { destruct (tools_is_not_none gold); eexists; split; reflexivity. }
  destruct Hbefore as (r & -> & <-).
  destruct r as [before | e]; [| exists log; split; [reflexivity | discriminate]].
  simpl golden_warnings. rewrite app_nil_r.
  destruct (golden_call action gold) as [[v | e] gold'] eqn:Hcall; cbn [fst snd].
  - unfold bind at 1. unfold try_except, bind, call, ret at 1.
    destruct (log_golden_action_quiet logfire task step_index action before gold' log)
      as (log' & -> & Hw).
    exists log'. split; [reflexivity |]. intros _. rewrite Hw, app_nil_r. reflexivity.
  - unfold bind at 1. unfold try_except, bind, call, emit at 1.
    set (w := warning_golden_action (name action) (arguments action) e).
    destruct (log_golden_action_quiet logfire task step_index action before gold'
                (log ++ [w])) as (log' & -> & Hw).
    exists log'. split; [reflexivity |]. intros _.
    rewrite Hw, warnings_app. reflexivity.
Qed.

Lemma replay_golden_actions_spec logfire task (golden_actions : list Action) :
  forall (step_index : nat) (gold : Env) log,
    exists log',
      replay_golden_actions logfire task step_index golden_actions gold log
      = (replay_outcome golden_actions gold, log').
Proof.
  induction golden_actions as [| action rest IH]; intros step_index gold log; simpl.
  - exists log. reflexivity.
  - unfold bind.
    destruct (golden_step_spec logfire task step_index action gold log)
      as (log1 & -> & _).
    destruct (step_outcome action gold) as [gold' | e]; [apply IH | eauto].
Qed.



(** ** The assertion loop *)

Lemma run_env_assertions_spec (env_assertions : list EnvAssertion) :
  forall (pred : Env) checks0 (acc : float) log checks r log',
    run_env_assertions env_assertions pred checks0 acc log = (Return (checks, r), log') ->
    exists new,
      checks = checks0 ++ new
      /\ r = fold_left mul (eac_reward <$> new) acc
      /\ eac_env_assertion <$> new = env_assertions
      /\ met <$> new = verdicts env_assertions pred
      /\ Forall (fun c => eac_reward c = if met c then one else zero) new.
Proof.
  induction env_assertions as [| a rest IH];
    intros pred checks0 acc log checks r log' Hrun; simpl in Hrun.
  - injection Hrun as <- <- <-. exists []. rewrite app_nil_r. repeat split. constructor.
  - unfold bind, method, ret, raise in Hrun. simpl.
    destruct (run_env_assertion a false pred) as [[success | e] env]; simpl in Hrun;
      [| discriminate].
    apply IH in Hrun as (new & -> & -> & Ha & Hv & Hall).
    exists (mkEnvAssertionCheck a success (if success then one else zero) :: new).
    split; [rewrite <- app_assoc; reflexivity |].
    split; [reflexivity |].
    split; [rewrite fmap_cons, Ha; reflexivity |].
    split; [rewrite fmap_cons, Hv; reflexivity |].
    constructor; [reflexivity | exact Hall].
Qed.


Lemma check_rewards_binary (checks : list EnvAssertionCheck) :
  Forall (fun c => eac_reward c = if met c then one else zero) checks ->
  Forall binary (eac_reward <$> checks).
Proof.
  intros Hall. apply Forall_fmap. eapply Forall_impl; [exact Hall |].
  intros c Hc. simpl. rewrite Hc. destruct (met c); [left | right]; reflexivity.
Qed.

(** ** The outcome of the full evaluation *)

Lemma evaluate_spec logfire task (criteria : EvaluationCriteria) (pred gold : Env) log :
  exists log',
    evaluate logfire task criteria pred gold log
    = (evaluate_outcome criteria pred gold, log').
Proof.
  unfold evaluate, evaluate_outcome, bind at 1.
  destruct (replay_golden_actions_spec logfire task (default [] (actions criteria))
              0 gold log) as (log1 & ->).
  destruct (replay_outcome _ gold) as [gold' | e]; [| eauto].
  unfold bind at 1, call.
  destruct (compare_hashes gold' pred) as [c | e]; [| eauto].
  unfold bind at 1.
  destruct (log_mismatch_returns task c log1) as (log2 & ->).
  unfold bind at 1.
  destruct (log_db_check_returns logfire task c gold' pred log2) as (log3 & ->).
  unfold bind. rewrite (run_env_assertions_frame _ _ _ _ log3).
  destruct (outcome _) as [[checks r] | e]; [| eauto].
  unfold reward_info. destruct (compose_reward _ _ _) as [reward breakdown].
  exists log3. reflexivity.
Qed.

Lemma calculate_reward_spec logfire
    (environment_constructor : option bool -> result Env) task criteria
    (full_trajectory : list Message) (solo_mode : bool) log :
  evaluation_criteria task = Some criteria ->
  actions criteria <> None \/ env_assertions criteria <> None ->
  exists log',
    calculate_reward logfire environment_constructor task full_trajectory solo_mode log
    = (full_outcome environment_constructor task criteria full_trajectory solo_mode,
       log').
Proof.
  intros Hcriteria Hfull. unfold calculate_reward, full_outcome. rewrite Hcriteria.
  assert (bool_decide (actions criteria = None)
          && bool_decide (env_assertions criteria = None) = false) as ->.
  { destruct Hfull as [H | H]; [rewrite (bool_decide_eq_false_2 _ H) |
      rewrite (bool_decide_eq_false_2 _ H), andb_false_r]; reflexivity. }
  unfold bind. rewrite seed_environments_frame.
  destruct (outcome _) as [[pred gold] | e]; [| eauto].
  apply evaluate_spec.
Qed.

(** ** The two shortcuts *)

Lemma shortcut_no_criteria logfire
    (environment_constructor : option bool -> result Env) task
    (full_trajectory : list Message) (solo_mode : bool) log :
  evaluation_criteria task = None ->
  calculate_reward logfire environment_constructor task full_trajectory solo_mode log
  = (Return (mkRewardInfo one None None None None
               (Some [("note", "No evaluation criteria")])), log).
Proof. unfold calculate_reward. intros ->. reflexivity. Qed.

Lemma shortcut_absent_lists logfire
    (environment_constructor : option bool -> result Env) task criteria
    (full_trajectory : list Message) (solo_mode : bool) log :
  evaluation_criteria task = Some criteria ->
  actions criteria = None ->
  env_assertions criteria = None ->
  calculate_reward logfire environment_constructor task full_trajectory solo_mode log
  = (Return (mkRewardInfo one (Some (mkDBCheck true one)) None None None
               (Some [("note", "No expected actions or env assertions")])), log).
Proof. unfold calculate_reward. intros -> -> ->. reflexivity. Qed.

(** C9. A task without evaluation criteria gets reward 1.0 and the note
    "No evaluation criteria", whatever the trajectory, the Logfire state and
    the environment constructor are: the constructor is never called (it may
    be one that always raises) and nothing is logged. *)
Theorem calculate_reward_no_criteria logfire
    (environment_constructor : option bool -> result Env) task
    (full_trajectory : list Message) (solo_mode : bool) log :
  evaluation_criteria task = None ->
  calculate_reward logfire environment_constructor task full_trajectory solo_mode log
  = (Return (mkRewardInfo one None None None None
               (Some [("note", "No evaluation criteria")])), log).
Proof. apply shortcut_no_criteria. Qed.

(** C1, as the code has it. A task whose criteria carry neither an [actions]
    list nor an [env_assertions] list (both are [None]) gets reward 1.0 and a
    [db_check] with [db_match = True] and [db_reward = 1.0], for every
    trajectory and every environment constructor; no environment is
    constructed and nothing is logged. *)
Theorem calculate_reward_trivial_criteria logfire
    (environment_constructor : option bool -> result Env) task criteria
    (full_trajectory : list Message) (solo_mode : bool) log :
  evaluation_criteria task = Some criteria ->
  actions criteria = None ->
  env_assertions criteria = None ->
  calculate_reward logfire environment_constructor task full_trajectory solo_mode log
  = (Return (mkRewardInfo one (Some (mkDBCheck true one)) None None None
               (Some [("note", "No expected actions or env assertions")])), log).
Proof. apply shortcut_absent_lists. Qed.

(** ** The extraction loop is dead code *)

(** C10. The list [predicted_tool_calls] is built and never read: with the
    loop of lines 80-86 removed, [calculate_reward] returns the same outcome
    and the same log on every input. *)
Theorem predicted_tool_calls_unused logfire
    (environment_constructor : option bool -> result Env) task
    (full_trajectory : list Message) (solo_mode : bool) log :
  calculate_reward logfire environment_constructor task full_trajectory solo_mode log
  = calculate_reward_without_extraction logfire environment_constructor task
      full_trajectory solo_mode log.
Proof.
  unfold calculate_reward, calculate_reward_without_extraction.
  destruct (evaluation_criteria task) as [criteria |]; [| reflexivity].
  destruct (_ && _); [reflexivity |].
  unfold bind. rewrite seed_environments_extraction. reflexivity.
Qed.

(** ** The reward and its breakdown *)

Lemma full_outcome_inv
    (environment_constructor : option bool -> result Env) task criteria
    (full_trajectory : list Message) (solo_mode : bool) ri :
  full_outcome environment_constructor task criteria full_trajectory solo_mode
  = Return ri ->
  exists pred gold0 gold c checks,
    outcome (seed_environments environment_constructor task full_trajectory
               solo_mode []) = Return (pred, gold0)
    /\ replay_outcome (default [] (actions criteria)) gold0 = Return gold
    /\ compare_hashes gold pred = Return c
    /\ run_env_assertions (default [] (env_assertions criteria)) pred [] one []
       = (Return (checks, product (eac_reward <$> checks)), [])
    /\ ri = reward_info criteria c checks (product (eac_reward <$> checks)).
Proof.
  unfold full_outcome, evaluate_outcome. intros Hri.
  destruct (outcome (seed_environments _ _ _ _ _)) as [[pred gold0] | e] eqn:Hseed;
    [| discriminate].
  destruct (replay_outcome _ gold0) as [gold | e] eqn:Hreplay; [| discriminate].
  destruct (compare_hashes gold pred) as [c | e] eqn:Hcompare; [| discriminate].
  pose proof (run_env_assertions_frame (default [] (env_assertions criteria))
                pred [] one []) as Hframe.
  destruct (outcome (run_env_assertions _ _ _ _ _)) as [[checks r] | e];
    [| discriminate].
  injection Hri as <-.
  destruct (run_env_assertions_spec _ _ _ _ _ _ _ _ Hframe)
    as (new & Hchecks & Hr & _).
  simpl in Hchecks. subst checks. fold (product (eac_reward <$> new)) in Hr. subst r.
  exists pred, gold0, gold, c, new. repeat split; assumption.
Qed.

(** C2, as the code has it. Whenever [calculate_reward] returns for a task
    with criteria, the scalar reward is the product of exactly the signals
    whose kind is in [reward_basis]: the db reward iff [DB] is in it, the
    aggregate assertion reward iff [ENV_ASSERTION] is. Past the shortcut
    (some list of the criteria is present) [reward_breakdown] has an entry for
    exactly the selected signals, keyed by kind; on the shortcut it is left
    unset. *)
Theorem reward_is_product_of_selected logfire
    (environment_constructor : option bool -> result Env) task criteria
    (full_trajectory : list Message) (solo_mode : bool) log ri log' :
  evaluation_criteria task = Some criteria ->
  calculate_reward logfire environment_constructor task full_trajectory solo_mode log
  = (Return ri, log') ->
  exists dbc,
    db_check ri = Some dbc
    /\ reward ri
       = product (selected_signals (reward_basis criteria) (db_reward dbc)
                    (aggregate (ri_env_assertions ri)))
    /\ (actions criteria <> None \/ env_assertions criteria <> None ->
        exists breakdown,
          reward_breakdown ri = Some breakdown
          /\ forall kind,
               breakdown !! kind
               = selected_entry (reward_basis criteria) (db_reward dbc)
                   (aggregate (ri_env_assertions ri)) kind)
    /\ (actions criteria = None -> env_assertions criteria = None ->
        reward_breakdown ri = None).
Proof.
  intros Hcriteria Hri.
  destruct (actions criteria) as [golden |] eqn:Hactions;
    [| destruct (env_assertions criteria) as [assertions |] eqn:Hassertions].
  3: { rewrite (shortcut_absent_lists logfire environment_constructor task
                  criteria full_trajectory solo_mode log Hcriteria Hactions Hassertions)
         in Hri.
       injection Hri as <- <-. exists (mkDBCheck true one). simpl.
       split; [reflexivity |]. split.
       - unfold selected_signals, aggregate.
         destruct (bool_decide (DB ∈ _)), (bool_decide (ENV_ASSERTION ∈ _)); reflexivity.
       - split; [intros [H | H]; congruence | reflexivity]. }
  all: assert (Hfull : actions criteria <> None \/ env_assertions criteria <> None)
         by (rewrite ?Hactions, ?Hassertions; auto).
  all: destruct (calculate_reward_spec logfire environment_constructor task criteria
                   full_trajectory solo_mode log Hcriteria Hfull) as (log1 & Hspec).
  all: rewrite Hspec in Hri; injection Hri as Hout <-.
  all: apply full_outcome_inv in Hout
         as (pred & gold0 & gold & c & checks & _ & _ & _ & _ & ->).
  all: destruct (compose_reward_spec (reward_basis criteria) (cmp_db_reward c)
                   (product (eac_reward <$> checks))) as [Hreward Hbreakdown].
  all: eexists; split; [reflexivity |]; simpl; unfold aggregate; simpl.
  all: split; [exact Hreward |].
  all: split; [intros _; eexists; split; [reflexivity | exact Hbreakdown] |].
  all: intros; congruence.
Qed.

(** ** The state-match signal *)

Lemma compare_hashes_binary (gold pred : Env) (c : Comparison) :
  compare_hashes gold pred = Return c ->
  ((cmp_db_match c = true /\ cmp_db_reward c = one)
   <-> (get_db_hash gold = get_db_hash pred
        /\ get_user_db_hash gold = get_user_db_hash pred))
  /\ ((cmp_db_match c = false /\ cmp_db_reward c = zero)
      <-> ~ (get_db_hash gold = get_db_hash pred
             /\ get_user_db_hash gold = get_user_db_hash pred)).
Proof.
  unfold compare_hashes.
  destruct (get_db_hash gold) as [a |]; [| discriminate].
  destruct (get_user_db_hash gold) as [u |]; [| discriminate].
  destruct (get_db_hash pred) as [pa |]; [| discriminate].
  destruct (get_user_db_hash pred) as [pu |]; [| discriminate].
  intros [= <-]. unfold compare_digests.
  destruct (bool_decide (a = pa)) eqn:Hagent;
    destruct (bool_decide (u = pu)) eqn:Huser; simpl.
  all: try apply bool_decide_eq_true_1 in Hagent.
  all: try apply bool_decide_eq_true_1 in Huser.
  all: try apply bool_decide_eq_false_1 in Hagent.
  all: try apply bool_decide_eq_false_1 in Huser.
  all: pose proof one_neq_zero.
  all: repeat split; intros; try tauto; try discriminate; try congruence.
  all: try (destruct_and?; congruence).
  all: try (intros [? ?]; congruence).
  all: exfalso; subst; tauto.
Qed.

Lemma compared_environments_spec logfire
    (environment_constructor : option bool -> result Env) task criteria
    (full_trajectory : list Message) (solo_mode : bool) log :
  exists log',
    compared_environments logfire environment_constructor task criteria
      full_trajectory solo_mode log
    = (match outcome (seed_environments environment_constructor task
                        full_trajectory solo_mode []) with
       | Return (pred, gold0) =>
           match replay_outcome (default [] (actions criteria)) gold0 with
           | Return gold => Return (pred, gold)
           | Raise e => Raise e
           end
       | Raise e => Raise e
       end, log').
Proof.
  unfold compared_environments, bind at 1. rewrite seed_environments_frame.
  destruct (outcome _) as [[pred gold0] | e]; [| eauto].
  unfold bind.
  destruct (replay_golden_actions_spec logfire task (default [] (actions criteria))
              0 gold0 log) as (log1 & ->).
  destruct (replay_outcome _ gold0) as [gold | e]; unfold ret; eauto.
Qed.

(** C3. Past the shortcuts, the state-match signal is binary. With [gold] the
    gold environment after the replay of the golden actions and [pred] the
    seeded predicted environment, [db_check] has [db_match = True] and
    [db_reward = 1.0] exactly when the agent digests are equal and the user
    digests are equal, and [db_match = False] and [db_reward = 0.0] exactly
    when they are not both equal. *)
Theorem db_check_is_binary logfire
    (environment_constructor : option bool -> result Env) task criteria
    (full_trajectory : list Message) (solo_mode : bool) log ri log' :
  evaluation_criteria task = Some criteria ->
  actions criteria <> None \/ env_assertions criteria <> None ->
  calculate_reward logfire environment_constructor task full_trajectory solo_mode log
  = (Return ri, log') ->
  exists pred gold log1 dbc,
    compared_environments logfire environment_constructor task criteria
      full_trajectory solo_mode log = (Return (pred, gold), log1)
    /\ db_check ri = Some dbc
    /\ ((db_match dbc = true /\ db_reward dbc = one)
        <-> (get_db_hash gold = get_db_hash pred
             /\ get_user_db_hash gold = get_user_db_hash pred))
    /\ ((db_match dbc = false /\ db_reward dbc = zero)
        <-> ~ (get_db_hash gold = get_db_hash pred
               /\ get_user_db_hash gold = get_user_db_hash pred)).
Proof.
  intros Hcriteria Hfull Hri.
  destruct (calculate_reward_spec logfire environment_constructor task criteria
              full_trajectory solo_mode log Hcriteria Hfull) as (log0 & Hspec).
  rewrite Hspec in Hri. injection Hri as Hout <-.
  apply full_outcome_inv in Hout
    as (pred & gold0 & gold & c & checks & Hseed & Hreplay & Hcompare & _ & ->).
  destruct (compared_environments_spec logfire environment_constructor task criteria
              full_trajectory solo_mode log) as (log1 & Hcompared).
  rewrite Hseed, Hreplay in Hcompared.
  exists pred, gold, log1, (mkDBCheck (cmp_db_match c) (cmp_db_reward c)).
  split; [exact Hcompared |]. split; [reflexivity |].
  exact (compare_hashes_binary gold pred c Hcompare).
Qed.

(** ** The assertion signal *)

Lemma run_env_assertions_raise (env_assertions : list EnvAssertion) :
  forall (pred : Env) checks (acc : float) log e log',
    run_env_assertions env_assertions pred checks acc log = (Raise e, log') ->
    exists a (env : Env),
      a ∈ env_assertions /\ (run_env_assertion a false env).1 = Raise e.
Proof.
  induction env_assertions as [| a rest IH]; intros pred checks acc log e log' Hraise;
    simpl in Hraise.
  - discriminate.
  - unfold bind, method, ret, raise in Hraise.
    destruct (run_env_assertion a false pred) as [[success | e'] env] eqn:Hrun;
      simpl in Hraise.
    + apply IH in Hraise as (a' & env' & Hin & Hraise).
      exists a', env'. split; [right; exact Hin | exact Hraise].
    + injection Hraise as <- <-. exists a, pred. rewrite Hrun. split; [left | reflexivity].
Qed.

(** The product of the rewards of a list of checks. *)
Lemma checks_product (checks : list EnvAssertionCheck) :
  Forall (fun c => eac_reward c = if met c then one else zero) checks ->
  ((exists c, c ∈ checks /\ met c = false) -> product (eac_reward <$> checks) = zero)
  /\ ((forall c, c ∈ checks -> met c = true) -> product (eac_reward <$> checks) = one).
Proof.
  intros Hrewards. split.
  - intros (c & Hin & Hunmet).
    apply fold_mul_zero; [left; reflexivity | apply check_rewards_binary, Hrewards |].
    apply list_elem_of_fmap. exists c. split; [| exact Hin].
    rewrite Forall_forall in Hrewards. rewrite (Hrewards c Hin), Hunmet. reflexivity.
  - intros Hmet. apply fold_mul_ones. intros r Hr.
    apply list_elem_of_fmap in Hr as (c & -> & Hin).
    rewrite Forall_forall in Hrewards. rewrite (Hrewards c Hin), (Hmet c Hin). reflexivity.
Qed.

(** C4. Past the shortcuts, once both environments are seeded, the golden
    actions replayed and the digests read, [calculate_reward] puts every
    assertion of the criteria to the predicted environment (the one seeded
    with the trajectory) with [raise_assertion_error=False], one after the
    other. It raises only what such a call raised in spite of the flag, so it
    returns for an environment that honours the flag. The [RewardInfo] it
    returns has one check per assertion, in order, with [met] the answer of
    the environment and reward 1.0 when met and 0.0 when not: an assertion
    that fails is recorded, not raised. The aggregate, which is the entry of
    [ENV_ASSERTION] in the breakdown and a factor of the reward when the
    basis selects it, is the product of the rewards of the checks: 0.0 as
    soon as one check is unmet, 1.0 when all are met, and 1.0 for the empty
    list. *)
Theorem env_assertion_reward_is_product logfire
    (environment_constructor : option bool -> result Env) task criteria
    (full_trajectory : list Message) (solo_mode : bool) log
    (pred gold0 gold : Env) (c : Comparison) :
  evaluation_criteria task = Some criteria ->
  actions criteria <> None \/ env_assertions criteria <> None ->
  outcome (seed_environments environment_constructor task full_trajectory solo_mode [])
  = Return (pred, gold0) ->
  replay_outcome (default [] (actions criteria)) gold0 = Return gold ->
  compare_hashes gold pred = Return c ->
  exists r log',
    calculate_reward logfire environment_constructor task full_trajectory solo_mode log
    = (r, log')
    /\ (honours_raise_flag -> is_raise r = false)
    /\ match r with
       | Raise e =>
           exists a (env : Env),
             a ∈ default [] (env_assertions criteria)
             /\ (run_env_assertion a false env).1 = Raise e
       | Return ri =>
           exists checks,
             ri_env_assertions ri = Some checks
             /\ eac_env_assertion <$> checks = default [] (env_assertions criteria)
             /\ met <$> checks = verdicts (default [] (env_assertions criteria)) pred
             /\ Forall (fun c => eac_reward c = if met c then one else zero) checks
             /\ (exists breakdown,
                   reward_breakdown ri = Some breakdown
                   /\ breakdown !! ENV_ASSERTION
                      = if bool_decide (ENV_ASSERTION ∈ reward_basis criteria)
                        then Some (product (eac_reward <$> checks)) else None)
             /\ reward ri
                = product (selected_signals (reward_basis criteria) (cmp_db_reward c)
                             (product (eac_reward <$> checks)))
             /\ ((exists c, c ∈ checks /\ met c = false) ->
                 product (eac_reward <$> checks) = zero)
             /\ ((forall c, c ∈ checks -> met c = true) ->
                 product (eac_reward <$> checks) = one)
             /\ (default [] (env_assertions criteria) = [] ->
                 product (eac_reward <$> checks) = one)
       end.
Proof.
  intros Hcriteria Hfull Hseed Hreplay Hcompare.
  destruct (calculate_reward_spec logfire environment_constructor task criteria
              full_trajectory solo_mode log Hcriteria Hfull) as (log' & ->).
  unfold full_outcome, evaluate_outcome. rewrite Hseed, Hreplay, Hcompare.
  pose proof (run_env_assertions_frame (default [] (env_assertions criteria))
                pred [] one []) as Hframe.
  destruct (outcome (run_env_assertions _ _ _ _ _)) as [[checks r] | e].
  - eexists _, log'. split; [reflexivity |]. split; [reflexivity |].
    destruct (run_env_assertions_spec _ _ _ _ _ _ _ _ Hframe)
      as (new & Hchecks & Hr & Hassertions & Hverdicts & Hrewards).
    simpl in Hchecks. subst checks. fold (product (eac_reward <$> new)) in Hr. subst r.
    destruct (compose_reward_spec (reward_basis criteria) (cmp_db_reward c)
                (product (eac_reward <$> new))) as [Hreward Hbreakdown].
    destruct (checks_product new Hrewards) as [Hzero Hone].
    exists new. simpl. repeat split; try assumption.
    + eexists. split; [reflexivity |]. apply Hbreakdown.
    + intros Hempty. rewrite Hempty in Hassertions.
      destruct new; [reflexivity | discriminate].
  - eexists _, log'. split; [reflexivity |].
    apply run_env_assertions_raise in Hframe as (a & env & Hin & Hraise).
    split; [| exists a, env; split; assumption].
    intros Hcontract. specialize (Hcontract a env). rewrite Hraise in Hcontract.
    discriminate.
Qed.

(** ** Failures of golden actions *)





(** ** Determinism *)

(** C7. The outcome of [calculate_reward] (the [RewardInfo], or the exception
    that leaves it) and the digests it compares depend on the constructor, the
    task, the trajectory and [solo_mode] only: two invocations on the same
    four agree, whatever the Logfire state and the log of each. *)
Theorem calculate_reward_deterministic logfire1 logfire2
    (environment_constructor : option bool -> result Env) task
    (full_trajectory : list Message) (solo_mode : bool) log1 log2 :
  outcome (calculate_reward logfire1 environment_constructor task full_trajectory
             solo_mode log1)
  = outcome (calculate_reward logfire2 environment_constructor task full_trajectory
               solo_mode log2)
  /\ forall criteria,
       digests_of (outcome (compared_environments logfire1 environment_constructor
                              task criteria full_trajectory solo_mode log1))
       = digests_of (outcome (compared_environments logfire2 environment_constructor
                                task criteria full_trajectory solo_mode log2)).
Proof.
  split.
  - destruct (evaluation_criteria task) as [criteria |] eqn:Hcriteria.
    + destruct (actions criteria) as [golden |] eqn:Hactions;
        [| destruct (env_assertions criteria) as [assertions |] eqn:Hassertions].
      3: { rewrite !(shortcut_absent_lists _ _ _ _ _ _ _
                       Hcriteria Hactions Hassertions). reflexivity. }
      all: assert (Hfull : actions criteria <> None \/ env_assertions criteria <> None)
             by (rewrite ?Hactions, ?Hassertions; auto).
      all: destruct (calculate_reward_spec logfire1 environment_constructor task
                       criteria full_trajectory solo_mode log1 Hcriteria Hfull)
             as (l1 & ->).
      all: destruct (calculate_reward_spec logfire2 environment_constructor task
                       criteria full_trajectory solo_mode log2 Hcriteria Hfull)
             as (l2 & ->).
      all: reflexivity.
    + rewrite !(shortcut_no_criteria _ _ _ _ _ _ Hcriteria). reflexivity.
  - intros criteria.
    destruct (compared_environments_spec logfire1 environment_constructor task
                criteria full_trajectory solo_mode log1) as (l1 & ->).
    destruct (compared_environments_spec logfire2 environment_constructor task
                criteria full_trajectory solo_mode log2) as (l2 & ->).
    reflexivity.
Qed.

(** ** Seeding errors *)

(** C8. Past the shortcuts, an exception raised by [set_state] leaves
    [calculate_reward] as it is: whether the predicted environment rejects
    the seed and the trajectory, or the gold environment rejects the seed and
    the message history, the caller gets that exception, no [RewardInfo], and
    nothing has been logged. *)
Theorem seeding_error_propagates logfire
    (environment_constructor : option bool -> result Env) task criteria
    (full_trajectory : list Message) (solo_mode : bool) log e (pred0 : Env) :
  evaluation_criteria task = Some criteria ->
  actions criteria <> None \/ env_assertions criteria <> None ->
  environment_constructor (Some solo_mode) = Return pred0 ->
  (set_state (task_initialization_data task) (task_initialization_actions task)
     full_trajectory pred0).1 = Raise e
  \/ (exists pred gold0,
        set_state (task_initialization_data task) (task_initialization_actions task)
          full_trajectory pred0 = (Return tt, pred)
        /\ environment_constructor None = Return gold0
        /\ (set_state (task_initialization_data task)
              (task_initialization_actions task) (task_message_history task)
              gold0).1 = Raise e) ->
  calculate_reward logfire environment_constructor task full_trajectory solo_mode log
  = (Raise e, log).
Proof.
  intros Hcriteria Hfull Hpred Hraise.
  unfold calculate_reward. rewrite Hcriteria.
  assert (bool_decide (actions criteria = None)
          && bool_decide (env_assertions criteria = None) = false) as ->.
  { destruct Hfull as [H | H]; [rewrite (bool_decide_eq_false_2 _ H) |
      rewrite (bool_decide_eq_false_2 _ H), andb_false_r]; reflexivity. }
  unfold bind at 1. rewrite seed_environments_extraction.
  unfold seed_environments_without_extraction, bind, call, method, ret, raise.
  rewrite Hpred.
  destruct Hraise as [Hraise | (pred & gold0 & Hseed & Hgold & Hraise)].
  - rewrite Hraise. reflexivity.
  - rewrite Hseed. simpl. rewrite Hgold, Hraise. reflexivity.
Qed.

End Properties.

(** * The properties on the reference environment *)

Section Instances.

Import Ledger.

Lemma calculate_reward_no_criteria_witness :
  calculate_reward logfire_on failing_constructor no_criteria_task agent_books true []
  = (Return (mkRewardInfo one None None None None
               (Some [("note", "No evaluation criteria")])), []).
Proof. apply (calculate_reward_no_criteria logfire_on failing_constructor). reflexivity. Defined.

Lemma calculate_reward_trivial_criteria_witness :
  calculate_reward logfire_on failing_constructor absent_task agent_books true []
  = (Return shortcut_reward_info, []).
Proof.
  apply (calculate_reward_trivial_criteria logfire_on failing_constructor absent_task
           absent_criteria); reflexivity.
Defined.

(** C1 as stated fails on empty lists. The criteria below carry an empty
    [actions] list and an empty [env_assertions] list; the guard of line 46
    tests for [None], so the full evaluation runs: the agent booked a flight
    no golden action books, the digests differ, and the reward is 0.0 with
    [db_match = False]; with a constructor that raises, no reward comes back
    at all. *)
Lemma empty_criteria_are_evaluated :
  evaluation_criteria empty_task = Some empty_criteria
  /\ empty_or_absent (actions empty_criteria)
  /\ empty_or_absent (env_assertions empty_criteria)
  /\ calculate_reward logfire_off constructor empty_task agent_books false []
     = (Return empty_reward_info, [debug_agent_db_mismatch "empty"])
  /\ reward empty_reward_info <> one
  /\ calculate_reward logfire_off failing_constructor empty_task agent_books false []
     = (Raise (Exception "domain not registered"), []).
Proof.
  split; [reflexivity |]. split; [right; reflexivity |]. split; [right; reflexivity |].
  split; [vm_compute; reflexivity |].
  split; [intros H; apply one_neq_zero; symmetry; exact H | reflexivity].
Qed.

(** C2 as stated fails on the shortcut. The task has criteria and [DB] is in
    its basis, so the specification asks for a breakdown with the entry
    [DB ↦ 1.0];
    the shortcut of lines 46-51 returns a [RewardInfo] built without
    [reward_breakdown]. *)
Lemma shortcut_leaves_breakdown_unset :
  evaluation_criteria absent_task = Some absent_criteria
  /\ selected_entry (reward_basis absent_criteria) one one DB = Some one
  /\ calculate_reward logfire_off constructor absent_task agent_books false []
     = (Return shortcut_reward_info, [])
  /\ reward_breakdown shortcut_reward_info = None.
Proof. repeat split. Qed.

Lemma reward_is_product_of_selected_witness :
  exists dbc,
    db_check booking_reward_info = Some dbc
    /\ reward booking_reward_info
       = product (selected_signals (reward_basis booking_criteria) (db_reward dbc)
                    (aggregate (ri_env_assertions booking_reward_info)))
    /\ (actions booking_criteria <> None \/ env_assertions booking_criteria <> None ->
        exists breakdown,
          reward_breakdown booking_reward_info = Some breakdown
          /\ forall kind,
               breakdown !! kind
               = selected_entry (reward_basis booking_criteria) (db_reward dbc)
                   (aggregate (ri_env_assertions booking_reward_info)) kind)
    /\ (actions booking_criteria = None -> env_assertions booking_criteria = None ->
        reward_breakdown booking_reward_info = None).
Proof.
  apply (reward_is_product_of_selected logfire_off constructor booking_task
           booking_criteria agent_books false [] booking_reward_info booking_log).
  - reflexivity.
  - vm_compute. reflexivity.
Defined.

Lemma db_check_is_binary_witness :
  exists pred gold log1 dbc,
    compared_environments logfire_off constructor booking_task booking_criteria
      agent_books false [] = (Return (pred, gold), log1)
    /\ db_check booking_reward_info = Some dbc
    /\ ((db_match dbc = true /\ db_reward dbc = one)
        <-> (get_db_hash gold = get_db_hash pred
             /\ get_user_db_hash gold = get_user_db_hash pred))
    /\ ((db_match dbc = false /\ db_reward dbc = zero)
        <-> ~ (get_db_hash gold = get_db_hash pred
               /\ get_user_db_hash gold = get_user_db_hash pred)).
Proof.
  apply (db_check_is_binary logfire_off constructor booking_task booking_criteria
           agent_books false [] booking_reward_info booking_log).
  - reflexivity.
  - left. discriminate.
  - vm_compute. reflexivity.
Defined.

Lemma env_assertion_reward_is_product_witness :
  exists r log',
    calculate_reward logfire_off constructor booking_task agent_books false []
    = (r, log')
    /\ (honours_raise_flag (Env := ledger) -> is_raise r = false)
    /\ match r with
       | Raise e =>
           exists a (env : ledger),
             a ∈ default [] (env_assertions booking_criteria)
             /\ (run_env_assertion a false env).1 = Raise e
       | Return ri =>
           exists checks,
             ri_env_assertions ri = Some checks
             /\ eac_env_assertion <$> checks = default [] (env_assertions booking_criteria)
             /\ met <$> checks
                = verdicts (default [] (env_assertions booking_criteria))
                    (mkLedger ["book_flight"] [])
             /\ Forall (fun c => eac_reward c = if met c then one else zero) checks
             /\ (exists breakdown,
                   reward_breakdown ri = Some breakdown
                   /\ breakdown !! ENV_ASSERTION
                      = if bool_decide (ENV_ASSERTION ∈ reward_basis booking_criteria)
                        then Some (product (eac_reward <$> checks)) else None)
             /\ reward ri
                = product (selected_signals (reward_basis booking_criteria) zero
                             (product (eac_reward <$> checks)))
             /\ ((exists c, c ∈ checks /\ met c = false) ->
                 product (eac_reward <$> checks) = zero)
             /\ ((forall c, c ∈ checks -> met c = true) ->
                 product (eac_reward <$> checks) = one)
             /\ (default [] (env_assertions booking_criteria) = [] ->
                 product (eac_reward <$> checks) = one)
       end.
Proof.
  apply (env_assertion_reward_is_product logfire_off constructor booking_task
           booking_criteria agent_books false [] (mkLedger ["book_flight"] [])
           (mkLedger [] []) (mkLedger ["book_flight"; "send_receipt"] [])
           (compare_digests (digest ["book_flight"; "send_receipt"]) (digest [])
              (digest ["book_flight"]) (digest []))).
  - reflexivity.
  - left. discriminate.
  - reflexivity.
  - reflexivity.
  - reflexivity.
Defined.


(** C6 fails on the snapshot of line 97. It is taken before every golden
    action, outside any [try] and whether or not Logfire is enabled; on a
    domain whose agent database cannot be dumped the exception leaves
    [calculate_reward] and no reward is returned, while the snapshot taken
    after the action (line 121) sits under [try ... except Exception: pass]. *)
Theorem snapshot_failure_aborts_scoring :
  calculate_reward logfire_off sealed_constructor booking_task agent_books false []
  = (Raise (Exception "agent database cannot be dumped"), [])
  /\ calculate_reward logfire_on sealed_constructor booking_task agent_books false []
     = (Raise (Exception "agent database cannot be dumped"), []).
Proof. split; vm_compute; reflexivity. Qed.

Lemma seeding_error_propagates_witness :
  calculate_reward logfire_on constructor corrupt_task agent_books false []
  = (Raise (Exception "invalid initialization_data"), []).
Proof.
  apply (seeding_error_propagates logfire_on constructor corrupt_task booking_criteria
           agent_books false [] (Exception "invalid initialization_data")
           (mkLedger [] [])).
  - reflexivity.
  - left. discriminate.
  - reflexivity.
  - left. reflexivity.
Defined.

End Instances.

(** * Further properties of the evaluator *)

Section Evaluation.

Context {Env : Type} `{!Environment Env}.

Implicit Types (logfire : Logfire) (task : Task) (log : list Event) (e : exn).

(** Whatever [calculate_reward] returns is built in one of three ways. *)
Lemma calculate_reward_inv logfire
    (environment_constructor : option bool -> result Env) task
    (full_trajectory : list Message) (solo_mode : bool) log ri log' :
  calculate_reward logfire environment_constructor task full_trajectory solo_mode log
  = (Return ri, log') ->
  (evaluation_criteria task = None
   /\ ri = mkRewardInfo one None None None None
             (Some [("note", "No evaluation criteria")]))
  \/ (exists criteria,
        evaluation_criteria task = Some criteria
        /\ actions criteria = None /\ env_assertions criteria = None
        /\ ri = mkRewardInfo one (Some (mkDBCheck true one)) None None None
                  (Some [("note", "No expected actions or env assertions")]))
  \/ (exists criteria pred gold0 gold c checks,
        evaluation_criteria task = Some criteria
        /\ (actions criteria <> None \/ env_assertions criteria <> None)
        /\ outcome (seed_environments environment_constructor task full_trajectory
                      solo_mode []) = Return (pred, gold0)
        /\ replay_outcome (default [] (actions criteria)) gold0 = Return gold
        /\ compare_hashes gold pred = Return c
        /\ run_env_assertions (default [] (env_assertions criteria)) pred [] one []
           = (Return (checks, product (eac_reward <$> checks)), [])
        /\ ri = reward_info criteria c checks (product (eac_reward <$> checks))).
Proof.
  intros Hri.
  destruct (evaluation_criteria task) as [criteria |] eqn:Hcriteria.
  - destruct (actions criteria) as [golden |] eqn:Hactions;
      [| destruct (env_assertions criteria) as [assertions |] eqn:Hassertions].
    3: { right. left. exists criteria.
         rewrite (shortcut_absent_lists logfire environment_constructor task criteria
                    full_trajectory solo_mode log Hcriteria Hactions Hassertions) in Hri.
         injection Hri as <- <-. auto. }
    all: assert (Hfull : actions criteria <> None \/ env_assertions criteria <> None)
           by (rewrite ?Hactions, ?Hassertions; auto).
    all: destruct (calculate_reward_spec logfire environment_constructor task criteria
                     full_trajectory solo_mode log Hcriteria Hfull) as (log1 & Hspec).
    all: rewrite Hspec in Hri; injection Hri as Hout <-.
    all: apply full_outcome_inv in Hout
           as (pred & gold0 & gold & c & checks & Hseed & Hreplay & Hcompare & Hrun & ->).
    all: right; right; exists criteria, pred, gold0, gold, c, checks.
    all: rewrite ?Hactions, ?Hassertions in *; repeat split; assumption.
  - left.
    rewrite (shortcut_no_criteria logfire environment_constructor task full_trajectory
               solo_mode log Hcriteria) in Hri.
    injection Hri as <- <-. auto.
Qed.

Lemma compare_hashes_reward (gold pred : Env) (c : Comparison) :
  compare_hashes gold pred = Return c ->
  cmp_db_reward c = (if cmp_db_match c then one else zero).
Proof.
  unfold compare_hashes.
  repeat match goal with
         | |- context [match ?r with Return _ => _ | Raise _ => _ end] =>
             destruct r; [| discriminate]
         end.
  intros [= <-]. unfold compare_digests. destruct (_ && _); reflexivity.
Qed.

Lemma run_env_assertions_checks (env_assertions : list EnvAssertion) (pred : Env)
    checks r log log' :
  run_env_assertions env_assertions pred [] one log = (Return (checks, r), log') ->
  Forall (fun c => eac_reward c = if met c then one else zero) checks.
Proof.
  intros Hrun.
  destruct (run_env_assertions_spec _ _ _ _ _ _ _ _ Hrun) as (new & -> & _ & _ & _ & H).
  exact H.
Qed.

Lemma product_one_iff (rewards : list float) :
  Forall binary rewards ->
  product rewards = one <-> forall r, r ∈ rewards -> r = one.
Proof.
  intros Hall. split.
  - intros Hproduct r Hin.
    rewrite Forall_forall in Hall. destruct (Hall r Hin) as [-> | ->]; [reflexivity |].
    exfalso. apply one_neq_zero. rewrite <- Hproduct. unfold product.
    apply fold_mul_zero; [left; reflexivity | apply Forall_forall; exact Hall | exact Hin].
  - apply fold_mul_ones.
Qed.

(** X1. Every float of a returned [RewardInfo] is 0.0 or 1.0: the scalar
    reward, the state-match reward (1.0 exactly when [db_match]), the reward
    of every assertion check (1.0 exactly when [met]) and every entry of the
    breakdown. *)
Theorem returned_rewards_are_binary logfire
    (environment_constructor : option bool -> result Env) task
    (full_trajectory : list Message) (solo_mode : bool) log ri log' :
  calculate_reward logfire environment_constructor task full_trajectory solo_mode log
  = (Return ri, log') ->
  binary_rewards ri.
Proof.
  intros Hri. unfold binary_rewards.
  apply calculate_reward_inv in Hri
    as [[_ ->] | [(criteria & _ & _ & _ & ->)
       | (criteria & pred & gold0 & gold & cmp & checks & _ & _ & _ & _ & Hcompare
          & Hrun & ->)]];
    simpl.
  - repeat split; [left; reflexivity | discriminate | | discriminate].
    intros c Hc. inversion Hc.
  - repeat split; [left; reflexivity | | | discriminate].
    + intros dbc [= <-]. reflexivity.
    + intros c Hc. inversion Hc.
  - pose proof (run_env_assertions_checks _ _ _ _ _ _ Hrun) as Hchecks.
    pose proof (check_rewards_binary _ Hchecks) as Hbinary.
    assert (Hagg : binary (product (eac_reward <$> checks)))
      by (apply fold_mul_binary; [left; reflexivity | exact Hbinary]).
    assert (Hdb : binary (cmp_db_reward cmp))
      by (rewrite (compare_hashes_reward _ _ _ Hcompare); destruct (cmp_db_match _);
          [left | right]; reflexivity).
    destruct (compose_reward_spec (reward_basis criteria) (cmp_db_reward cmp)
                (product (eac_reward <$> checks))) as [Hreward Hbreakdown].
    repeat split.
    + rewrite Hreward. unfold selected_signals, product.
      destruct (bool_decide (DB ∈ _)), (bool_decide (ENV_ASSERTION ∈ _)); simpl.
      all: repeat apply binary_mul; try assumption; left; reflexivity.
    + intros dbc [= <-]. simpl. apply (compare_hashes_reward _ _ _ Hcompare).
    + intros c Hc. rewrite Forall_forall in Hchecks. apply Hchecks, Hc.
    + intros breakdown kind r [= <-] Hr. rewrite Hbreakdown in Hr.
      unfold selected_entry in Hr.
      destruct kind; repeat case_match; simplify_eq; assumption.
Qed.

Lemma selected_product_one (reward_basis : list RewardType) (d a : float) :
  binary d -> binary a ->
  product (selected_signals reward_basis d a) = one
  <-> (DB ∈ reward_basis -> d = one) /\ (ENV_ASSERTION ∈ reward_basis -> a = one).
Proof.
  intros Hd Ha. pose proof one_neq_zero as Hne.
  unfold selected_signals, product.
  assert (H11 : mul one one = one) by reflexivity.
  assert (H10 : mul one zero = zero) by reflexivity.
  assert (H01 : mul zero one = zero) by reflexivity.
  assert (H00 : mul zero zero = zero) by reflexivity.
  do 2 case_bool_decide; destruct Hd as [-> | ->], Ha as [-> | ->];
    cbn [fold_left app].
  all: rewrite ?H11, ?H10, ?H01, ?H00.
  all: split; [intros Heq; split; intros; congruence | intros [H1 H2]].
  all: try reflexivity.
  all: try (apply H1; assumption).
  all: try (apply H2; assumption).
Qed.

(** X2. For a task with criteria, the returned reward is 1.0 exactly when
    every signal the basis selects passed: the databases matched if [DB] is
    in the basis, and every assertion was met if [ENV_ASSERTION] is. A basis
    with neither kind always gives 1.0. *)
Theorem reward_one_iff_signals_pass logfire
    (environment_constructor : option bool -> result Env) task criteria
    (full_trajectory : list Message) (solo_mode : bool) log ri log' :
  evaluation_criteria task = Some criteria ->
  calculate_reward logfire environment_constructor task full_trajectory solo_mode log
  = (Return ri, log') ->
  reward ri = one <-> signals_pass (reward_basis criteria) ri.
Proof.
  intros Hcriteria Hri. unfold signals_pass.
  apply calculate_reward_inv in Hri
    as [[Hnone _] | [(criteria' & Hsome & _ & _ & ->)
       | (criteria' & pred & gold0 & gold & cmp & checks & Hsome & _ & _ & _ & Hcompare
          & Hrun & ->)]].
  - congruence.
  - simpl. split; [| reflexivity]. intros _. split.
    + intros _. eexists. split; reflexivity.
    + intros _ c Hc. inversion Hc.
  - assert (criteria' = criteria) as -> by congruence.
    pose proof (run_env_assertions_checks _ _ _ _ _ _ Hrun) as Hchecks.
    pose proof (check_rewards_binary _ Hchecks) as Hbinary.
    assert (Hmet : product (eac_reward <$> checks) = one
                   <-> forall c, c ∈ checks -> met c = true).
    { rewrite (product_one_iff _ Hbinary). split.
      - intros H c Hc. rewrite Forall_forall in Hchecks.
        specialize (H (eac_reward c) (list_elem_of_fmap_2 _ _ _ Hc)).
        rewrite (Hchecks c Hc) in H. destruct (met c); [reflexivity |].
        exfalso. apply one_neq_zero. symmetry. exact H.
      - intros H r Hr. apply list_elem_of_fmap in Hr as (c & -> & Hc).
        rewrite Forall_forall in Hchecks. rewrite (Hchecks c Hc), (H c Hc). reflexivity. }
    assert (Hagg : binary (product (eac_reward <$> checks)))
      by (apply fold_mul_binary; [left; reflexivity | exact Hbinary]).
    pose proof (compare_hashes_reward gold pred cmp Hcompare) as Hdb.
    assert (Hd : binary (cmp_db_reward cmp))
      by (rewrite Hdb; destruct (cmp_db_match _); [left | right]; reflexivity).
    destruct (compose_reward_spec (reward_basis criteria) (cmp_db_reward cmp)
                (product (eac_reward <$> checks))) as [Hreward _].
    simpl. rewrite Hreward, (selected_product_one _ _ _ Hd Hagg), Hmet.
    split; intros [HDB HEA]; (split; [| exact HEA]); intros Hin.
    + eexists. split; [reflexivity |]. simpl.
      specialize (HDB Hin). rewrite Hdb in HDB.
      destruct (cmp_db_match _); [reflexivity |].
      exfalso. apply one_neq_zero. symmetry. exact HDB.
    + destruct (HDB Hin) as (dbc & [= <-] & Hm). simpl in Hm.
      rewrite Hdb, Hm. reflexivity.
Qed.

(** ** Where an exception can come from *)

Lemma replay_outcome_raise (golden_actions : list Action) :
  forall (gold : Env) e,
    replay_outcome golden_actions gold = Raise e ->
    exists env : Env, tools_is_not_none env = true /\ get_agent_db_state env = Raise e.
Proof.
  induction golden_actions as [| action rest IH]; intros gold e Hraise; simpl in Hraise.
  - discriminate.
  - unfold step_outcome in Hraise.
    destruct (tools_is_not_none gold) eqn:Htools.
    + destruct (get_agent_db_state gold) as [before | e'] eqn:Hsnapshot.
      * apply IH in Hraise. exact Hraise.
      * injection Hraise as <-. exists gold. split; assumption.
    + apply IH in Hraise. exact Hraise.
Qed.

Lemma seed_outcome_raise
    (environment_constructor : option bool -> result Env) task
    (full_trajectory : list Message) (solo_mode : bool) e :
  outcome (seed_environments environment_constructor task full_trajectory solo_mode [])
  = Raise e ->
  (exists mode, environment_constructor mode = Raise e)
  \/ (exists history (env : Env),
        (set_state (task_initialization_data task) (task_initialization_actions task)
           history env).1 = Raise e).
Proof.
  rewrite seed_environments_extraction.
  unfold seed_environments_without_extraction, outcome, bind, call, method, ret, raise.
  destruct (environment_constructor (Some solo_mode)) as [pred0 | e'] eqn:Hpred;
    [| intros [= <-]; left; eauto].
  destruct (set_state _ _ full_trajectory pred0) as [[[] | e'] pred] eqn:Hseed; simpl;
    [| intros [= <-]; right; exists full_trajectory, pred0; rewrite Hseed; reflexivity].
  destruct (environment_constructor None) as [gold0 | e'] eqn:Hgold;
    [| intros [= <-]; left; eauto].
  destruct (set_state _ _ (task_message_history task) gold0) as [[[] | e'] gold]
    eqn:Hseed'; simpl; [discriminate |].
  intros [= <-]. right. exists (task_message_history task), gold0.
  rewrite Hseed'. reflexivity.
Qed.

Lemma compare_hashes_raise (gold pred : Env) e :
  compare_hashes gold pred = Raise e ->
  (exists env : Env, get_db_hash env = Raise e)
  \/ (exists env : Env, get_user_db_hash env = Raise e).
Proof.
  unfold compare_hashes.
  destruct (get_db_hash gold) eqn:H1; [| intros [= <-]; eauto].
  destruct (get_user_db_hash gold) eqn:H2; [| intros [= <-]; eauto].
  destruct (get_db_hash pred) eqn:H3; [| intros [= <-]; eauto].
  destruct (get_user_db_hash pred) eqn:H4; [discriminate | intros [= <-]; eauto].
Qed.

(** X3. [calculate_reward] raises only what one of the method calls it makes
    outside a [try] raised: the environment constructor, [set_state] with the
    seed of the task, the agent-database snapshot of an environment that has
    tools, [get_db_hash], [get_user_db_hash], or [run_env_assertion] with
    [raise_assertion_error=False] on one of the assertions of the criteria.
    Failing golden actions, Logfire and the diff of the snapshots are never
    the cause. *)
Theorem exception_sources logfire
    (environment_constructor : option bool -> result Env) task
    (full_trajectory : list Message) (solo_mode : bool) log e log' :
  calculate_reward logfire environment_constructor task full_trajectory solo_mode log
  = (Raise e, log') ->
  (exists mode, environment_constructor mode = Raise e)
  \/ (exists history (env : Env),
        (set_state (task_initialization_data task) (task_initialization_actions task)
           history env).1 = Raise e)
  \/ (exists env : Env, tools_is_not_none env = true /\ get_agent_db_state env = Raise e)
  \/ (exists env : Env, get_db_hash env = Raise e)
  \/ (exists env : Env, get_user_db_hash env = Raise e)
  \/ (exists criteria a (env : Env),
        evaluation_criteria task = Some criteria
        /\ a ∈ default [] (env_assertions criteria)
        /\ (run_env_assertion a false env).1 = Raise e).
Proof.
  intros Hraise.
  destruct (evaluation_criteria task) as [criteria |] eqn:Hcriteria.
  2: { rewrite (shortcut_no_criteria logfire environment_constructor task
                  full_trajectory solo_mode log Hcriteria) in Hraise. discriminate. }
  destruct (actions criteria) as [golden |] eqn:Hactions;
    [| destruct (env_assertions criteria) as [assertions |] eqn:Hassertions].
  3: { rewrite (shortcut_absent_lists logfire environment_constructor task criteria
                  full_trajectory solo_mode log Hcriteria Hactions Hassertions)
         in Hraise. discriminate. }
  all: assert (Hfull : actions criteria <> None \/ env_assertions criteria <> None)
         by (rewrite ?Hactions, ?Hassertions; auto).
  all: destruct (calculate_reward_spec logfire environment_constructor task criteria
                   full_trajectory solo_mode log Hcriteria Hfull) as (log1 & Hspec).
  all: rewrite Hspec in Hraise; injection Hraise as Hout _.
  all: unfold full_outcome in Hout.
  all: destruct (outcome (seed_environments _ _ _ _ _)) as [[pred gold0] | e'] eqn:Hseed;
         [| injection Hout as ->; apply seed_outcome_raise in Hseed as [H | H]; auto].
  all: unfold evaluate_outcome in Hout.
  all: destruct (replay_outcome _ gold0) as [gold | e'] eqn:Hreplay;
         [| injection Hout as ->; apply replay_outcome_raise in Hreplay; auto].
  all: destruct (compare_hashes gold pred) as [c | e'] eqn:Hcompare;
         [| injection Hout as ->;
            apply compare_hashes_raise in Hcompare as [H | H]; auto 6].
  all: destruct (run_env_assertions (default [] (env_assertions criteria)) pred [] one [])
         as [[[checks r] | e'] l] eqn:Hrun; unfold outcome in Hout;
         simpl in Hout; [discriminate |].
  all: injection Hout as ->.
  all: apply run_env_assertions_raise in Hrun as (a & env & Hin & Hrun).
  all: do 5 right; exists criteria, a, env; auto.
Qed.

(** ** The two environments are seeded alike *)

(** X4. When the constructor does not look at [solo_mode], the trajectory is
    the message history of the task and the criteria carry no golden action,
    the two environments go through the same calls: whenever a reward is
    returned, [db_match] is true and [db_reward] is 1.0. *)
Theorem history_only_trajectory_matches logfire
    (environment_constructor : option bool -> result Env) task criteria
    (full_trajectory : list Message) (solo_mode : bool) log ri log' :
  evaluation_criteria task = Some criteria ->
  environment_constructor (Some solo_mode) = environment_constructor None ->
  full_trajectory = task_message_history task ->
  default [] (actions criteria) = [] ->
  calculate_reward logfire environment_constructor task full_trajectory solo_mode log
  = (Return ri, log') ->
  db_check ri = Some (mkDBCheck true one).
Proof.
  intros Hcriteria Hctor -> Hgolden Hri.
  apply calculate_reward_inv in Hri
    as [[Hnone _] | [(criteria' & _ & _ & _ & ->)
       | (criteria' & pred & gold0 & gold & c & checks & Hsome & _ & Hseed & Hreplay
          & Hcompare & _ & ->)]].
  - congruence.
  - reflexivity.
  - assert (criteria' = criteria) as -> by congruence.
    rewrite Hgolden in Hreplay. injection Hreplay as <-.
    rewrite seed_environments_extraction in Hseed.
    unfold seed_environments_without_extraction, outcome, bind, call, method, ret, raise
      in Hseed.
    rewrite Hctor in Hseed.
    destruct (environment_constructor None) as [env0 | e]; [| discriminate].
    destruct (set_state _ _ (task_message_history task) env0) as [[[] | e] env];
      simpl in Hseed; [| discriminate].
    injection Hseed as <- <-.
    unfold compare_hashes in Hcompare.
    destruct (get_db_hash env) as [a |]; [| discriminate].
    destruct (get_user_db_hash env) as [u |]; [| discriminate].
    injection Hcompare as <-.
    unfold reward_info, compare_digests. simpl.
    rewrite !bool_decide_eq_true_2 by reflexivity. reflexivity.
Qed.

(** ** What the extraction loop collects *)

(** X5. The loop of lines 80-86 appends to [predicted_tool_calls] the tool
    calls of the assistant and user messages, in trajectory order; messages
    of the other classes and messages without tool calls add nothing; it
    never raises and logs nothing. *)
Theorem extract_tool_calls_collects (full_trajectory : list Message) :
  forall predicted_tool_calls log,
    extract_tool_calls full_trajectory predicted_tool_calls log
    = (Return (predicted_tool_calls ++ trajectory_tool_calls full_trajectory), log).
Proof.
  unfold trajectory_tool_calls.
  induction full_trajectory as [| message rest IH]; intros acc log; simpl.
  - rewrite app_nil_r. reflexivity.
  - destruct message as [c | c [calls |] | c [calls |] | i c r]; simpl.
    all: unfold bind, call; simpl; rewrite IH, ?app_assoc, ?app_nil_r; reflexivity.
Qed.

End Evaluation.

(** * Logfire and the log *)

Section Spans.

Context {Env : Type} `{!Environment Env}.

Implicit Types (logfire : Logfire) (task : Task) (log : list Event) (e : exn).

Lemma loguru_app log log' : loguru (log ++ log') = loguru log ++ loguru log'.
Proof. apply List.filter_app. Qed.

Lemma adds_spans_ret {A} (a : A) : adds_spans (ret a) (ret a).
Proof. intros log log0. exists (Return a), []. rewrite !app_nil_r. split; reflexivity. Qed.

Lemma adds_spans_call {A} (r : result A) : adds_spans (call r) (call r).
Proof. intros log log0. exists r, []. rewrite !app_nil_r. split; reflexivity. Qed.

Lemma adds_spans_method {A} (r : result A * Env) : adds_spans (method r) (method r).
Proof.
  intros log log0. rewrite (method_frame r log), (method_frame r log0).
  exists (outcome (method r [])), []. rewrite !app_nil_r. split; reflexivity.
Qed.

Lemma adds_spans_emit (ev : Event) :
  is_span ev = false -> adds_spans (emit ev) (emit ev).
Proof.
  intros Hev log log0. exists (Return tt), [ev]. unfold emit, loguru. simpl.
  rewrite Hev. split; reflexivity.
Qed.

Lemma adds_spans_bind {A B} (m m0 : M A) (k k0 : A -> M B) :
  adds_spans m m0 -> (forall a, adds_spans (k a) (k0 a)) ->
  adds_spans (bind m k) (bind m0 k0).
Proof.
  intros Hm Hk log log0. unfold bind.
  destruct (Hm log log0) as (r & evs & -> & ->).
  destruct r as [a | e].
  - destruct (Hk a (log ++ evs) (log0 ++ loguru evs)) as (r' & evs' & -> & ->).
    exists r', (evs ++ evs'). rewrite loguru_app, !app_assoc. split; reflexivity.
  - exists (Raise e), evs. split; reflexivity.
Qed.

(** A block that returns [None] and logs spans only is, without Logfire, no
    block at all. *)
Lemma adds_spans_quiet (m : M unit) :
  (forall log, exists evs, m log = (Return tt, log ++ evs) /\ loguru evs = []) ->
  adds_spans m (ret tt).
Proof.
  intros Hm log log0. destruct (Hm log) as (evs & -> & Hevs).
  exists (Return tt), evs. rewrite Hevs, app_nil_r. split; reflexivity.
Qed.

Lemma log_golden_action_spans logfire task (step_index : nat) (action : Action)
    (before : option pydict) (gold : Env) log :
  exists evs,
    log_golden_action logfire task step_index action before gold log
    = (Return tt, log ++ evs) /\ loguru evs = [].
Proof.
  unfold log_golden_action.
  destruct (_ && _); [| exists []; rewrite app_nil_r; split; reflexivity].
  unfold try_except, bind, call, emit, ret.
  destruct (import_logfire logfire);
    [| exists []; rewrite app_nil_r; split; reflexivity].
  destruct (get_agent_db_state gold) as [after |];
    [| exists []; rewrite app_nil_r; split; reflexivity].
  destruct (dict_diff_for_logging _ _ _) as [diff |];
    [| exists []; rewrite app_nil_r; split; reflexivity].
  destruct (span logfire _) as [[] |];
    [| exists []; rewrite app_nil_r; split; reflexivity].
  eexists [_]. split; reflexivity.
Qed.

Lemma log_db_check_spans logfire task (c : Comparison) (gold pred : Env) log :
  exists evs,
    log_db_check logfire task c gold pred log = (Return tt, log ++ evs)
    /\ loguru evs = [].
Proof.
  unfold log_db_check.
  destruct (is_logfire_enabled logfire);
    [| exists []; rewrite app_nil_r; split; reflexivity].
  unfold try_except, bind, call, emit, ret.
  repeat match goal with
         | |- context [match ?r with Return _ => _ | Raise _ => _ end] =>
             destruct r as [[] | ?] || destruct r as [? | ?]
         end.
  all: try (exists []; rewrite app_nil_r; split; reflexivity).
  all: eexists [_]; split; reflexivity.
Qed.

Lemma log_off logfire0 task (step_index : nat) (action : Action)
    (before : option pydict) (gold : Env) :
  _logfire_configured logfire0 = false ->
  log_golden_action logfire0 task step_index action before gold = ret tt.
Proof. unfold log_golden_action, is_logfire_enabled. intros ->. reflexivity. Qed.

Lemma log_db_check_off logfire0 task (c : Comparison) (gold pred : Env) :
  _logfire_configured logfire0 = false ->
  log_db_check logfire0 task c gold pred = ret tt.
Proof. unfold log_db_check, is_logfire_enabled. intros ->. reflexivity. Qed.

Lemma golden_step_adds_spans logfire logfire0 task (step_index : nat)
    (action : Action) (gold : Env) :
  _logfire_configured logfire0 = false ->
  adds_spans (golden_step logfire task step_index action gold)
    (golden_step logfire0 task step_index action gold).
Proof.
  intros Hoff. unfold golden_step.
  apply adds_spans_bind.
  { destruct (tools_is_not_none gold); [apply adds_spans_call | apply adds_spans_ret]. }
  intros before. apply adds_spans_bind.
  { intros log log0. unfold try_except, bind, call, ret, emit.
    destruct (make_tool_call _ _ _ gold).1 as [v | e].
    - exists (Return tt), []. rewrite !app_nil_r. split; reflexivity.
    - exists (Return tt), [warning_golden_action (name action) (arguments action) e].
      split; reflexivity. }
  intros _. apply adds_spans_bind; [| intros _; apply adds_spans_ret].
  rewrite (log_off logfire0) by exact Hoff.
  apply adds_spans_quiet. intros log. apply log_golden_action_spans.
Qed.

Lemma replay_adds_spans logfire logfire0 task (golden_actions : list Action) :
  _logfire_configured logfire0 = false ->
  forall (step_index : nat) (gold : Env),
    adds_spans (replay_golden_actions logfire task step_index golden_actions gold)
      (replay_golden_actions logfire0 task step_index golden_actions gold).
Proof.
  intros Hoff.
  induction golden_actions as [| action rest IH]; intros step_index gold; simpl.
  - apply adds_spans_ret.
  - apply adds_spans_bind; [apply golden_step_adds_spans, Hoff |].
    intros gold'. apply IH.
Qed.

Lemma log_mismatch_adds_spans task (c : Comparison) :
  adds_spans (log_mismatch task c) (log_mismatch task c).
Proof.
  unfold log_mismatch.
  destruct (agent_db_match c), (user_db_match c); simpl.
  all: repeat first [apply adds_spans_ret | apply adds_spans_emit; reflexivity
                    | apply adds_spans_bind | intros _].
Qed.

Lemma run_env_assertions_adds_spans (env_assertions : list EnvAssertion) :
  forall (pred : Env) checks (acc : float),
    adds_spans (run_env_assertions env_assertions pred checks acc)
      (run_env_assertions env_assertions pred checks acc).
Proof.
  induction env_assertions as [| a rest IH]; intros pred checks acc; simpl.
  - apply adds_spans_ret.
  - apply adds_spans_bind; [apply adds_spans_method |]. intros [success env]. apply IH.
Qed.

Lemma seed_environments_adds_spans
    (environment_constructor : option bool -> result Env) task
    (full_trajectory : list Message) (solo_mode : bool) :
  adds_spans (seed_environments environment_constructor task full_trajectory solo_mode)
    (seed_environments environment_constructor task full_trajectory solo_mode).
Proof.
  intros log log0.
  rewrite (seed_environments_frame _ _ _ _ log), (seed_environments_frame _ _ _ _ log0).
  eexists _, []. rewrite !app_nil_r. split; reflexivity.
Qed.

Lemma evaluate_adds_spans logfire logfire0 task (criteria : EvaluationCriteria)
    (pred gold : Env) :
  _logfire_configured logfire0 = false ->
  adds_spans (evaluate logfire task criteria pred gold)
    (evaluate logfire0 task criteria pred gold).
Proof.
  intros Hoff. unfold evaluate.
  apply adds_spans_bind; [apply replay_adds_spans, Hoff |]. intros gold'.
  apply adds_spans_bind; [apply adds_spans_call |]. intros c.
  apply adds_spans_bind; [apply log_mismatch_adds_spans |]. intros _.
  apply adds_spans_bind.
  { rewrite (log_db_check_off logfire0) by exact Hoff.
    apply adds_spans_quiet. intros log. apply log_db_check_spans. }
  intros _.
  apply adds_spans_bind; [apply run_env_assertions_adds_spans |].
  intros [checks r]. destruct (compose_reward _ _ _). apply adds_spans_ret.
Qed.

Lemma calculate_reward_adds_spans logfire logfire0
    (environment_constructor : option bool -> result Env) task
    (full_trajectory : list Message) (solo_mode : bool) :
  _logfire_configured logfire0 = false ->
  adds_spans
    (calculate_reward logfire environment_constructor task full_trajectory solo_mode)
    (calculate_reward logfire0 environment_constructor task full_trajectory solo_mode).
Proof.
  intros Hoff. unfold calculate_reward.
  destruct (evaluation_criteria task) as [criteria |]; [| apply adds_spans_ret].
  destruct (_ && _); [apply adds_spans_ret |].
  apply adds_spans_bind; [apply seed_environments_adds_spans |].
  intros [pred gold]. apply evaluate_adds_spans, Hoff.
Qed.

Lemma unconfigured_no_spans logfire
    (environment_constructor : option bool -> result Env) task
    (full_trajectory : list Message) (solo_mode : bool) log :
  _logfire_configured logfire = false ->
  exists evs,
    (calculate_reward logfire environment_constructor task full_trajectory
       solo_mode log).2 = log ++ evs
    /\ Forall (fun ev => is_span ev = false) evs.
Proof.
  intros Hoff.
  destruct (calculate_reward_adds_spans logfire logfire environment_constructor task
              full_trajectory solo_mode Hoff log log) as (r & evs & Hrun & Hrun').
  assert (Hevs : loguru evs = evs).
  { rewrite Hrun in Hrun'. injection Hrun' as Heq. apply app_inv_head in Heq.
    symmetry. exact Heq. }
  exists evs. rewrite Hrun. split; [reflexivity |].
  rewrite <- Hevs. unfold loguru. apply Forall_forall. intros ev Hin.
  apply list_elem_of_In, List.filter_In in Hin as [_ Hin].
  apply negb_true_iff. exact Hin.
Qed.

(** X6. Logfire changes nothing but the spans. On the same inputs, a run
    with any Logfire state and a run with Logfire not configured have the
    same outcome (the same [RewardInfo] or the same exception); the run only
    appends to the log it is given; and what the unconfigured run appends
    is what the other appends without its spans, so the warnings and debug
    lines are the same, in the same order. *)
Theorem logfire_only_adds_spans logfire logfire0
    (environment_constructor : option bool -> result Env) task
    (full_trajectory : list Message) (solo_mode : bool) log log0 :
  _logfire_configured logfire0 = false ->
  exists r evs,
    calculate_reward logfire environment_constructor task full_trajectory solo_mode log
    = (r, log ++ evs)
    /\ calculate_reward logfire0 environment_constructor task full_trajectory
         solo_mode log0 = (r, log0 ++ loguru evs).
Proof. intros Hoff. apply calculate_reward_adds_spans, Hoff. Qed.

(** X7. With Logfire not configured the library is never consulted: two
    unconfigured states, whatever their import, diff and span behaviour,
    give the same outcome and the same log, and no span is logged. *)
Theorem unconfigured_logfire_is_inert logfire1 logfire2
    (environment_constructor : option bool -> result Env) task
    (full_trajectory : list Message) (solo_mode : bool) log :
  _logfire_configured logfire1 = false ->
  _logfire_configured logfire2 = false ->
  calculate_reward logfire1 environment_constructor task full_trajectory solo_mode log
  = calculate_reward logfire2 environment_constructor task full_trajectory solo_mode log
  /\ exists evs,
       (calculate_reward logfire1 environment_constructor task full_trajectory
          solo_mode log).2 = log ++ evs
       /\ Forall (fun ev => is_span ev = false) evs.
Proof.
  intros Hoff1 Hoff2. split; [| apply unconfigured_no_spans, Hoff1].
  destruct (calculate_reward_adds_spans logfire1 logfire1 environment_constructor task
              full_trajectory solo_mode Hoff1 log log) as (r & evs & Hrun & Hrun').
  assert (Hevs : loguru evs = evs).
  { rewrite Hrun in Hrun'. injection Hrun' as Heq. apply app_inv_head in Heq.
    symmetry. exact Heq. }
  destruct (calculate_reward_adds_spans logfire1 logfire2 environment_constructor task
              full_trajectory solo_mode Hoff2 log log) as (r' & evs' & Hrun1 & Hrun2).
  rewrite Hrun in Hrun1. injection Hrun1 as <- Heq. apply app_inv_head in Heq.
  subst evs'. rewrite Hrun, Hrun2, Hevs. reflexivity.
Qed.

(** ** The diff of two snapshots *)

(** X8. [dict_diff_for_logging] returns [None] exactly when both snapshots
    are [None]; it raises only what [DeepDiff] raised on two snapshots that
    are both present; and when a snapshot is missing the library is not
    called at all. *)
Theorem dict_diff_for_logging_none logfire (expected predicted : option pydict) :
  (dict_diff_for_logging logfire expected predicted = Return None
   <-> expected = None /\ predicted = None)
  /\ (forall e,
        dict_diff_for_logging logfire expected predicted = Raise e ->
        exists d1 d2,
          expected = Some d1 /\ predicted = Some d2 /\ DeepDiff logfire d1 d2 = Raise e)
  /\ (forall logfire',
        expected = None \/ predicted = None ->
        dict_diff_for_logging logfire' expected predicted
        = dict_diff_for_logging logfire expected predicted).
Proof.
  unfold dict_diff_for_logging.
  destruct expected as [d1 |], predicted as [d2 |].
  - destruct (DeepDiff logfire d1 d2) as [diff | e'] eqn:Hdiff.
    + repeat split; try discriminate; intros; destruct_and?; try discriminate.
      destruct H; discriminate.
    + repeat split; try discriminate; intros; destruct_and?; try discriminate.
      * injection H as <-. eauto.
      * destruct H; discriminate.
  - repeat split; try discriminate; intros; destruct_and?; try discriminate; reflexivity.
  - repeat split; try discriminate; intros; destruct_and?; try discriminate; reflexivity.
  - repeat split; try discriminate; intros; reflexivity.
Qed.

End Spans.

(** * Properties of tau2/logfire_setup.py *)

Section LogfireSetupProperties.

Import LogfireSetup.

Implicit Types (settings : Settings) (lib : Library) (p : process)
  (calls : list call_of).

Lemma init_logfire_keeps settings lib p :
  environ_LOGFIRE_TOKEN (init_logfire settings lib p).1.2 = environ_LOGFIRE_TOKEN p
  /\ _LOGFIRE_DEBUG (init_logfire settings lib p).1.2 = _LOGFIRE_DEBUG p.
Proof.
  unfold init_logfire.
  destruct (configured p); [split; reflexivity |].
  destruct (negb (enabled settings p)); [split; reflexivity |].
  destruct (import_logfire_module lib); [| split; reflexivity].
  destruct (configure lib _); split; reflexivity.
Qed.

Lemma init_logfire_configured settings lib p :
  configured (init_logfire settings lib p).1.2
  = configured p
    || (enabled settings p && configures settings (call_init_logfire lib)).
Proof.
  unfold init_logfire, configures.
  destruct (configured p) eqn:Hp; [simpl; exact Hp |].
  destruct (enabled settings p); simpl; [| exact Hp].
  destruct (import_logfire_module lib); simpl; [| exact Hp].
  destruct (configure lib _); simpl; [reflexivity | exact Hp].
Qed.

Lemma step_configured settings c p :
  configured (step settings c p).1
  = configured p || (enabled settings p && configures settings c)
  /\ enabled settings (step settings c p).1 = enabled settings p.
Proof.
  destruct c as [lib | lib timeout | lib level]; simpl.
  - split; [apply init_logfire_configured |].
    unfold enabled. destruct (init_logfire_keeps settings lib p) as [-> _]. reflexivity.
  - unfold flush_logfire.
    destruct (configured p) eqn:Hp; simpl;
      [destruct (import_logfire_module lib); [destruct (force_flush lib _) |] |].
    all: simpl; rewrite ?Hp, ?andb_false_r; split; reflexivity.
  - unfold add_loguru_handler.
    destruct (configured p) eqn:Hp; simpl;
      [destruct (import_logfire_module lib); [destruct (add_loguru_sink lib _) |] |].
    all: simpl; rewrite ?Hp, ?andb_false_r; split; reflexivity.
Qed.

Lemma run_cons settings c calls p :
  run settings (c :: calls) p
  = ((run settings calls (step settings c p).1).1,
     (step settings c p).2 ++ (run settings calls (step settings c p).1).2).
Proof.
  simpl. destruct (step settings c p) as [p1 evs1]. cbn [fst snd].
  destruct (run settings calls p1) as [p2 evs2]. reflexivity.
Qed.

Lemma run_configured settings calls :
  forall p,
    configured (run settings calls p).1
    = configured p
      || (enabled settings p && existsb (configures settings) calls).
Proof.
  induction calls as [| c rest IH]; intros p.
  - simpl. rewrite andb_false_r, orb_false_r. reflexivity.
  - rewrite run_cons. cbn [fst]. rewrite IH.
    destruct (step_configured settings c p) as [-> ->]. simpl.
    destruct (configured p), (enabled settings p), (configures settings c);
      reflexivity.
Qed.

(** X9. [init_logfire] returns [True] exactly when Logfire is configured
    once the call is over, whichever of its five ways out it takes. *)
Theorem init_logfire_returns_enabled settings lib p :
  (init_logfire settings lib p).1.1
  = is_logfire_enabled (init_logfire settings lib p).1.2.
Proof.
  unfold init_logfire, is_logfire_enabled.
  destruct (configured p) eqn:Hp; [simpl; rewrite Hp; reflexivity |].
  destruct (negb (enabled settings p)); [simpl; rewrite Hp; reflexivity |].
  destruct (import_logfire_module lib); [| simpl; rewrite Hp; reflexivity].
  destruct (configure lib _); simpl; [reflexivity | rewrite Hp; reflexivity].
Qed.

(** X10. After the module is imported, whatever calls are made into it,
    Logfire is enabled at the end exactly when [USE_LOGFIRE] is true or a
    non-empty token comes from the environment or from the configuration,
    and some [init_logfire] found the import and [logfire.configure]
    succeeding. A failure of [instrument_litellm], of a flush or of the
    loguru sink changes nothing, and nothing ever disables Logfire again. *)
Theorem enabled_iff_configured settings (environ_token : option string)
    (debug : bool) calls :
  is_logfire_enabled
    (run settings calls (import_module settings environ_token debug)).1 = true
  <-> (USE_LOGFIRE settings = true \/ truthy environ_token = true
       \/ truthy (LOGFIRE_TOKEN settings) = true)
      /\ exists c, c ∈ calls /\ configures settings c = true.
Proof.
  unfold is_logfire_enabled. rewrite run_configured. simpl.
  rewrite andb_true_iff, existsb_exists.
  assert (Henabled :
    enabled settings (import_module settings environ_token debug) = true
    <-> USE_LOGFIRE settings = true \/ truthy environ_token = true
        \/ truthy (LOGFIRE_TOKEN settings) = true).
  { unfold enabled, import_module. simpl.
    destruct (USE_LOGFIRE settings), (truthy (LOGFIRE_TOKEN settings)) eqn:Hcfg,
      (truthy environ_token) eqn:Henv; simpl; rewrite ?Hcfg, ?Henv.
    all: split; intros; try reflexivity; try discriminate; auto.
    all: destruct H as [H | [H | H]]; discriminate. }
  rewrite Henabled. split; intros [Hen (c & Hin & Hc)]; (split; [exact Hen |]).
  - exists c. split; [apply list_elem_of_In, Hin | exact Hc].
  - exists c. split; [apply list_elem_of_In, Hin | exact Hc].
Qed.

Lemma no_configure_when_configured settings calls :
  forall p,
    configured p = true ->
    List.filter is_configure_success (run settings calls p).2 = [].
Proof.
  induction calls as [| c rest IH]; intros p Hp; [reflexivity |].
  rewrite run_cons. cbn [snd]. rewrite List.filter_app.
  destruct (step_configured settings c p) as [Hc _]. rewrite Hp in Hc. simpl in Hc.
  rewrite (IH _ Hc), app_nil_r.
  destruct c as [lib | lib timeout | lib level]; simpl.
  - unfold init_logfire, _debug. rewrite Hp. destruct (_LOGFIRE_DEBUG p); reflexivity.
  - unfold flush_logfire, _debug. rewrite Hp. simpl.
    destruct (import_logfire_module lib); [destruct (force_flush lib _) |];
      destruct (_LOGFIRE_DEBUG p); reflexivity.
  - unfold add_loguru_handler, _debug. rewrite Hp. simpl.
    destruct (import_logfire_module lib); [destruct (add_loguru_sink lib _) |];
      destruct (_LOGFIRE_DEBUG p); reflexivity.
Qed.

(** X11. [init_logfire] is safe to call many times: over any sequence of
    calls into the module, from any state, [logfire.configure] succeeds at
    most once, and not at all when Logfire was configured to begin with. *)
Theorem configure_succeeds_at_most_once settings calls p :
  length (List.filter is_configure_success (run settings calls p).2)
  <= (if configured p then 0 else 1).
Proof.
  revert p. induction calls as [| c rest IH]; intros p.
  - simpl. destruct (configured p); lia.
  - destruct (configured p) eqn:Hp.
    + rewrite (no_configure_when_configured settings (c :: rest) p Hp). simpl. lia.
    + rewrite run_cons. cbn [snd]. rewrite List.filter_app, length_app.
      specialize (IH (step settings c p).1).
      destruct c as [lib | lib timeout | lib level]; simpl in *.
      * revert IH. unfold init_logfire, _debug. rewrite Hp.
        destruct (negb (enabled settings p));
          [| destruct (import_logfire_module lib);
             [destruct (configure lib _); [destruct (instrument_litellm lib) |] |]];
          destruct (_LOGFIRE_DEBUG p); simpl; rewrite ?Hp; lia.
      * revert IH. unfold flush_logfire, _debug. rewrite Hp. simpl. rewrite Hp.
        destruct (_LOGFIRE_DEBUG p); simpl; lia.
      * revert IH. unfold add_loguru_handler, _debug. rewrite Hp. simpl. rewrite Hp.
        destruct (_LOGFIRE_DEBUG p); simpl; lia.
Qed.

(** X12. Without [USE_LOGFIRE] and without a token, the logfire library is
    never touched: no call into the module imports it or calls it, and the
    process state stays as it was. *)
Theorem disabled_never_touches_library settings calls p :
  configured p = false ->
  enabled settings p = false ->
  (run settings calls p).1 = p
  /\ List.filter is_library_call (run settings calls p).2 = [].
Proof.
  intros Hp Hen. induction calls as [| c rest IH]; [split; reflexivity |].
  rewrite run_cons. cbn [fst snd]. rewrite List.filter_app.
  assert (Hstep : (step settings c p).1 = p
                  /\ List.filter is_library_call (step settings c p).2 = []).
  { destruct c as [lib | lib timeout | lib level]; simpl.
    - unfold init_logfire, _debug. rewrite Hp, Hen. simpl.
      destruct (_LOGFIRE_DEBUG p); split; reflexivity.
    - unfold flush_logfire, _debug. rewrite Hp. simpl.
      destruct (_LOGFIRE_DEBUG p); split; reflexivity.
    - unfold add_loguru_handler, _debug. rewrite Hp. simpl.
      destruct (_LOGFIRE_DEBUG p); split; reflexivity. }
  destruct Hstep as [-> ->]. destruct IH as [-> ->]. split; reflexivity.
Qed.

(** X13. The status line that [init_logfire] prints under [LOGFIRE_DEBUG]
    formats the value of [USE_LOGFIRE or os.environ.get("LOGFIRE_TOKEN")]: it
    shows the token itself exactly when debugging is on, Logfire is not yet
    configured, [USE_LOGFIRE] is false and the token is set. *)
Theorem status_line_shows_token settings lib p (token : string) :
  environ_LOGFIRE_TOKEN p = Some token ->
  (exists ev, ev ∈ (init_logfire settings lib p).2 /\ status_shows token ev)
  <-> _LOGFIRE_DEBUG p = true /\ configured p = false /\ USE_LOGFIRE settings = false.
Proof.
  intros Htoken. unfold status_shows. split.
  - intros (ev & Hin & use & set & ->). revert Hin.
    unfold init_logfire, _debug, enabled_value. rewrite Htoken.
    destruct (configured p), (_LOGFIRE_DEBUG p), (USE_LOGFIRE settings); simpl.
    all: repeat match goal with
                | |- context [if ?b then _ else _] => destruct b
                | |- context [match ?r with Return _ => _ | Raise _ => _ end] =>
                    destruct r
                end; simpl.
    all: rewrite ?elem_of_cons, ?elem_of_app, ?elem_of_nil.
    all: intros H; repeat destruct H as [H | H]; try discriminate H;
         try contradiction; auto.
  - intros (Hdebug & Hp & Huse).
    exists (stderr (init_status false (truthy (Some token)) (PyStr token))).
    split; [| eauto].
    unfold init_logfire, _debug, enabled_value. rewrite Htoken, Hdebug, Hp, Huse.
    repeat match goal with
           | |- context [if ?b then _ else _] => destruct b
           | |- context [match ?r with Return _ => _ | Raise _ => _ end] => destruct r
           end; simpl; left.
Qed.

End LogfireSetupProperties.

(** * Properties of [_make_diff_serializable] *)

Section SerializableProperties.

Import Serializable.

Variable str : obj -> string.

Lemma insert_keyed_map {A} (f : obj -> A) (x : obj) (sorted : list obj) :
  insert_keyed str (x, f x) (List.map (fun v => (v, f v)) sorted)
  = List.map (fun v => (v, f v)) (insert_by_str str x sorted).
Proof.
  induction sorted as [| y rest IH]; simpl; [reflexivity |].
  destruct (String.leb (str x) (str y)); simpl; [reflexivity |].
  rewrite IH. reflexivity.
Qed.

Lemma sorted_keyed_map {A} (f : obj -> A) (items : list obj) :
  List.map snd (sorted_keyed str (List.map (fun v => (v, f v)) items))
  = List.map f (sorted_by_str str items).
Proof.
  assert (H : sorted_keyed str (List.map (fun v => (v, f v)) items)
              = List.map (fun v => (v, f v)) (sorted_by_str str items)).
  { unfold sorted_keyed, sorted_by_str.
    induction items as [| x rest IH]; simpl; [reflexivity |].
    rewrite IH. apply insert_keyed_map. }
  rewrite H, List.map_map. reflexivity.
Qed.

Lemma insert_by_str_perm (x : obj) (sorted : list obj) :
  insert_by_str str x sorted ≡ₚ x :: sorted.
Proof.
  induction sorted as [| y rest IH]; simpl; [reflexivity |].
  destruct (String.leb (str x) (str y)); [reflexivity |].
  rewrite IH. apply Permutation_swap.
Qed.

Lemma insert_by_str_sorted (x : obj) (sorted : list obj) :
  Sorted (in_str_order str) sorted -> Sorted (in_str_order str) (insert_by_str str x sorted).
Proof.
  induction sorted as [| y rest IH]; intros Hsorted; simpl.
  - repeat constructor.
  - destruct (String.leb (str x) (str y)) eqn:Hxy.
    + constructor; [exact Hsorted | constructor; exact Hxy].
    + apply Sorted_inv in Hsorted as [Hrest Hhead].
      constructor; [apply IH, Hrest |].
      assert (Hyx : String.leb (str y) (str x) = true).
      { destruct (String.leb_total (str x) (str y)) as [H | H]; [congruence | exact H]. }
      destruct rest as [| z rest']; simpl.
      * constructor. exact Hyx.
      * destruct (String.leb (str x) (str z)); constructor; [exact Hyx |].
        inversion Hhead. assumption.
Qed.

(** X14. For a set, [_make_diff_serializable] gives the list of the converted
    items in the order [sorted(obj, key=str)] puts them: a rearrangement
    of the items in which the [str] of each item is at most that of the
    next. *)
Theorem make_diff_serializable_set (items : list obj) :
  _make_diff_serializable str (OSet items)
  = OList (List.map (_make_diff_serializable str) (sorted_by_str str items))
  /\ sorted_by_str str items ≡ₚ items
  /\ Sorted (in_str_order str) (sorted_by_str str items).
Proof.
  split; [simpl; rewrite sorted_keyed_map; reflexivity |].
  split.
  - induction items as [| x rest IH]; simpl; [reflexivity |].
    rewrite insert_by_str_perm. unfold sorted_by_str in IH. rewrite IH. reflexivity.
  - induction items as [| x rest IH]; simpl; [constructor |].
    apply insert_by_str_sorted, IH.
Qed.

Lemma forallb_map_true {A B} (f : A -> B) (test : B -> bool) (l : list A) :
  Forall (fun x => test (f x) = true) l -> forallb test (List.map f l) = true.
Proof.
  induction 1 as [| x rest Hx _ IH]; simpl; [reflexivity |]. rewrite Hx, IH. reflexivity.
Qed.

Lemma sorted_by_str_perm (items : list obj) : sorted_by_str str items ≡ₚ items.
Proof.
  induction items as [| x rest IH]; simpl; [reflexivity |].
  rewrite insert_by_str_perm. unfold sorted_by_str in IH. rewrite IH. reflexivity.
Qed.

Lemma serializable_plain (o : obj) :
  plain (_make_diff_serializable str o) = true.
Proof.
  induction o using obj_induction; try reflexivity.
  - simpl. apply forallb_map_true. assumption.
  - simpl. apply forallb_map_true. assumption.
  - simpl. rewrite sorted_keyed_map. apply forallb_map_true.
    rewrite sorted_by_str_perm. assumption.
  - simpl. rewrite forallb_forall. intros kv Hin.
    apply List.in_map_iff in Hin as (kv' & <- & Hin). simpl.
    rewrite Forall_forall in H. apply H, list_elem_of_In, Hin.
  - simpl. apply forallb_map_true. assumption.
Qed.

(** X15. What [_make_diff_serializable] returns has no set, no tuple and no
    iterable that can be iterated left in it: not at the top, not among the
    items of a list, not among the values of a dictionary, at any depth. *)
Theorem make_diff_serializable_plain (o : obj) :
  plain (_make_diff_serializable str o) = true.
Proof. exact (serializable_plain o). Qed.

Lemma plain_fixed (o : obj) : plain o = true -> _make_diff_serializable str o = o.
Proof.
  induction o using obj_induction; intros Hplain; try reflexivity; try discriminate.
  - simpl in *. f_equal. rewrite forallb_forall in Hplain.
    induction H as [| x rest Hx _ IH]; simpl; [reflexivity |].
    rewrite Hx, IH; [reflexivity | |].
    + intros y Hy. apply Hplain. right. exact Hy.
    + apply Hplain. left. reflexivity.
  - simpl in *. f_equal. rewrite forallb_forall in Hplain.
    induction H as [| [k v] rest Hx _ IH]; simpl; [reflexivity |].
    simpl in Hx. rewrite Hx, IH; [reflexivity | |].
    + intros y Hy. apply Hplain. right. exact Hy.
    + apply (Hplain (k, v)). left. reflexivity.
Qed.

(** X16. [_make_diff_serializable] is idempotent: converting a converted
    object changes nothing. *)
Theorem make_diff_serializable_idempotent (o : obj) :
  _make_diff_serializable str (_make_diff_serializable str o)
  = _make_diff_serializable str o.
Proof. apply plain_fixed, serializable_plain. Qed.

End SerializableProperties.

(** * Properties of tau2.utils.llm_utils *)

Section ParseProperties.

Import LlmUtils.

Variable alnum : char -> bool.

Lemma longest_first_none {A} (n : nat) (attempt : nat -> option A) :
  (forall k, 1 <= k <= n -> attempt k = None) -> longest_first n attempt = None.
Proof.
  induction n as [| n IH]; intros Hnone; simpl; [reflexivity |].
  rewrite Hnone by lia. apply IH. intros k Hk. apply Hnone. lia.
Qed.

Lemma longest_first_last {A} (n : nat) (attempt : nat -> option A) :
  (forall k, 1 <= k < n -> attempt k = None) ->
  longest_first n attempt = match n with 0 => None | S _ => attempt n end.
Proof.
  destruct n as [| n]; intros Hnone; simpl; [reflexivity |].
  destruct (attempt (S n)); [reflexivity |].
  apply longest_first_none. intros k Hk. apply Hnone. lia.
Qed.

Lemma drop_below_span (accepts : char -> bool) (s : pystr) (k : nat) :
  k < span accepts s -> exists x rest, drop k s = x :: rest /\ accepts x = true.
Proof.
  revert k. induction s as [| c s IH]; intros k Hk; simpl in *; [lia |].
  destruct (accepts c) eqn:Hc; [| lia].
  destruct k as [| k]; simpl; [eauto |]. apply IH. lia.
Qed.

Lemma take_span (accepts : char -> bool) (s : pystr) :
  forallb accepts (take (span accepts s) s) = true.
Proof.
  induction s as [| c s IH]; simpl; [reflexivity |].
  destruct (accepts c) eqn:Hc; simpl; [rewrite Hc; exact IH | reflexivity].
Qed.

Lemma drop_span (accepts : char -> bool) (s : pystr) (x : char) (rest : pystr) :
  drop (span accepts s) s = x :: rest -> accepts x = false.
Proof.
  induction s as [| c s IH]; simpl; [discriminate |].
  destruct (accepts c) eqn:Hc; simpl; [exact IH | congruence].
Qed.

Lemma span_app (accepts : char -> bool) (m : pystr) (x : char) (rest : pystr) :
  forallb accepts m = true -> accepts x = false ->
  span accepts (m ++ x :: rest) = length m.
Proof.
  intros Hm Hx. induction m as [| c m IH]; simpl in *; [rewrite Hx; reflexivity |].
  apply andb_true_iff in Hm as [Hc Hm]. rewrite Hc, IH by exact Hm. reflexivity.
Qed.

Lemma span_positive (accepts : char -> bool) (s : pystr) :
  span accepts s <> 0 -> exists x rest, s = x :: rest /\ accepts x = true.
Proof.
  destruct s as [| x rest]; simpl; [congruence |].
  destruct (accepts x) eqn:Hx; [eauto | congruence].
Qed.

Lemma take_span_nonempty (accepts : char -> bool) (s : pystr) :
  span accepts s <> 0 -> take (span accepts s) s <> [].
Proof.
  destruct s as [| x rest]; simpl; [congruence |].
  destruct (accepts x); simpl; congruence.
Qed.

(** A group followed by a literal outside its class: only the longest run
    can be followed by the literal. *)
Lemma re_match_plus_lit name accepts c rest s :
  accepts c = false ->
  re_match (Plus name accepts :: Lit c :: rest) s
  = if Nat.eqb (span accepts s) 0 then None else
      match re_match (Lit c :: rest) (drop (span accepts s) s) with
      | Some groups => Some ((name, take (span accepts s) s) :: groups)
      | None => None
      end.
Proof.
  intros Hc. cbn [re_match]. rewrite longest_first_last.
  - destruct (span accepts s); reflexivity.
  - intros k Hk. destruct (drop_below_span accepts s k) as (x & s' & -> & Hx); [lia |].
    destruct (N.eqb_spec x c) as [-> | _]; [congruence | reflexivity].
Qed.

Lemma re_match_plus_end name accepts s :
  re_match [Plus name accepts] s
  = if Nat.eqb (span accepts s) 0 then None
    else Some [(name, take (span accepts s) s)].
Proof. cbn [re_match]. destruct (span accepts s); reflexivity. Qed.

Lemma re_match_lit c rest s :
  re_match (Lit c :: rest) s
  = match s with
    | x :: s' => if (x =? c)%N then re_match rest s' else None
    | [] => None
    end.
Proof. reflexivity. Qed.

Lemma pattern_items :
  pattern alnum
  = [Lit 102%N; Lit 116%N; Lit colon; Plus "model" not_colon; Lit colon;
     Plus "provider" (word alnum); Lit colon; Lit colon; Plus "id" (word alnum)].
Proof. reflexivity. Qed.

Ltac match_lit H :=
  rewrite re_match_lit in H;
  match type of H with
  | match ?s with _ => _ end = _ =>
      destruct s as [| ? ?] eqn:?; [discriminate |]
  end;
  match type of H with
  | (if (?x =? ?c)%N then _ else _) = _ =>
      destruct (N.eqb_spec x c) as [-> |]; [| discriminate]
  end.

Ltac match_plus H :=
  match type of H with
  | (if Nat.eqb ?n 0 then _ else _) = _ =>
      destruct (Nat.eqb_spec n 0) as [| ?Hspan] in H; [discriminate |]
  end.

(** What a successful match looks like. *)
Lemma re_match_pattern_inv (name : pystr) (m : Match) :
  re_match (pattern alnum) name = Some m ->
  exists model groups, m = ("model", model) :: groups /\ fine_tuned alnum name model.
Proof.
  rewrite pattern_items. intros Hm.
  do 3 match_lit Hm.
  rewrite re_match_plus_lit in Hm by reflexivity. match_plus Hm.
  destruct (re_match _ (drop _ _)) as [groups |] eqn:Hrest in Hm; [| discriminate].
  injection Hm as <-.
  match_lit Hrest.
  rewrite re_match_plus_lit in Hrest by reflexivity. match_plus Hrest.
  destruct (re_match _ (drop _ _)) as [groups' |] eqn:Hrest' in Hrest; [| discriminate].
  injection Hrest as <-.
  do 2 match_lit Hrest'.
  rewrite re_match_plus_end in Hrest'. match_plus Hrest'. injection Hrest' as <-.
  eexists _, _. split; [reflexivity |].
  destruct (span_positive _ _ Hspan1) as (id_start & rest & -> & Hid).
  exists (take (span (word alnum) l1) l1), id_start, rest.
  split; [| auto using take_span, take_span_nonempty].
  cbn [py app]. do 3 f_equal.
  rewrite <- (take_drop (span not_colon l0) l0) at 1. f_equal.
  rewrite Heql1. f_equal.
  rewrite <- (take_drop (span (word alnum) l1) l1) at 1. f_equal.
  exact Heql2.
Qed.

(** A fine-tuned name is matched, and the group is its model. *)
Lemma re_match_pattern_fine_tuned (name model : pystr) :
  fine_tuned alnum name model ->
  exists groups, re_match (pattern alnum) name = Some (("model", model) :: groups).
Proof.
  intros (provider & id_start & rest & -> & Hmodel & Hcolon & Hprovider & Hword & Hid).
  rewrite pattern_items. cbn [py app].
  do 3 (rewrite re_match_lit; cbn [N.eqb Pos.eqb]).
  rewrite re_match_plus_lit by reflexivity.
  rewrite (span_app not_colon model colon) by (assumption || reflexivity).
  rewrite take_app_length, drop_app_length.
  destruct model as [| c model]; [congruence |]. cbn [length Nat.eqb].
  rewrite re_match_lit. cbn [colon N.eqb Pos.eqb].
  rewrite re_match_plus_lit by reflexivity.
  rewrite (span_app (word alnum) provider colon) by (assumption || reflexivity).
  rewrite take_app_length, drop_app_length.
  destruct provider as [| c' provider]; [congruence |]. cbn [length Nat.eqb].
  do 2 (rewrite re_match_lit; cbn [colon N.eqb Pos.eqb]).
  rewrite re_match_plus_end. cbn [span]. rewrite Hid. cbn [Nat.eqb].
  eexists. reflexivity.
Qed.

Lemma parse_ft_model_name_cases (name : pystr) :
  (re_match (pattern alnum) name = None
   /\ _parse_ft_model_name alnum name = Return name)
  \/ (exists model, fine_tuned alnum name model
      /\ _parse_ft_model_name alnum name = Return model).
Proof.
  unfold _parse_ft_model_name.
  destruct (re_match (pattern alnum) name) as [m |] eqn:Hm; [right | left; auto].
  destruct (re_match_pattern_inv name m Hm) as (model & groups & -> & Hfine).
  exists model. split; [exact Hfine | reflexivity].
Qed.

Lemma fine_tuned_starts (name model : pystr) :
  fine_tuned alnum name model -> exists rest, name = py "ft:" ++ rest.
Proof. intros (provider & id_start & rest & -> & _). eauto. Qed.

Lemma colon_free_unmatched (name : pystr) :
  forallb not_colon name = true -> re_match (pattern alnum) name = None.
Proof.
  intros Hfree. destruct (re_match (pattern alnum) name) as [m |] eqn:Hm; [| reflexivity].
  destruct (re_match_pattern_inv name m Hm) as (model & groups & _ & Hfine).
  destruct (fine_tuned_starts _ _ Hfine) as (rest & ->).
  cbn in Hfree. discriminate.
Qed.

Lemma parse_ft_model_name_fixed (name parsed : pystr) :
  _parse_ft_model_name alnum name = Return parsed ->
  _parse_ft_model_name alnum parsed = Return parsed.
Proof.
  intros Hparsed.
  destruct (parse_ft_model_name_cases name) as [[_ Hsame] | (model & Hfine & Hmodel)].
  - congruence.
  - assert (parsed = model) as -> by congruence.
    destruct Hfine as (_ & _ & _ & _ & _ & Hfree & _).
    unfold _parse_ft_model_name. rewrite colon_free_unmatched by exact Hfree.
    reflexivity.
Qed.

Lemma parse_ft_model_name_returns (name : pystr) :
  exists parsed, _parse_ft_model_name alnum name = Return parsed.
Proof.
  destruct (parse_ft_model_name_cases name) as [[_ H] | (model & _ & H)]; eauto.
Qed.

(** X17. A name of the form [ft:<model>:<provider>::<id>], with a non-empty
    model without colon, a non-empty provider of word characters and an id
    starting with a word character, is parsed to its model, whatever follows
    the id. *)
Theorem parse_ft_model_name_fine_tuned (name model : pystr) :
  fine_tuned alnum name model -> _parse_ft_model_name alnum name = Return model.
Proof.
  intros Hfine. destruct (re_match_pattern_fine_tuned name model Hfine) as (groups & Hm).
  unfold _parse_ft_model_name. rewrite Hm. reflexivity.
Qed.

(** X18. Every other name is returned unchanged; in particular
    [_parse_ft_model_name] never raises. *)
Theorem parse_ft_model_name_other (name : pystr) :
  (forall model, ~ fine_tuned alnum name model) ->
  _parse_ft_model_name alnum name = Return name.
Proof.
  intros Hother.
  destruct (parse_ft_model_name_cases name) as [[_ H] | (model & Hfine & _)];
    [exact H | destruct (Hother model Hfine)].
Qed.

(** X19. [_parse_ft_model_name] always returns, what it returns contains a
    colon only if it is the name itself, and parsing the result again
    gives the same result. *)
Theorem parse_ft_model_name_idempotent (name : pystr) :
  exists parsed,
    _parse_ft_model_name alnum name = Return parsed
    /\ (parsed = name \/ forallb not_colon parsed = true)
    /\ _parse_ft_model_name alnum parsed = Return parsed.
Proof.
  destruct (parse_ft_model_name_returns name) as (parsed & Hparsed).
  exists parsed. split; [exact Hparsed |].
  split; [| exact (parse_ft_model_name_fixed name parsed Hparsed)].
  destruct (parse_ft_model_name_cases name) as [[_ H] | (model & Hfine & H)].
  - left. congruence.
  - right. assert (parsed = model) as -> by congruence.
    destruct Hfine as (_ & _ & _ & _ & _ & Hfree & _). exact Hfree.
Qed.

End ParseProperties.

Section ConversionProperties.

Import LlmUtils.

Variable json_dumps : pydict -> string.

Lemma to_litellm_messages_loop_acc (messages : list Message) :
  forall litellm_messages,
    to_litellm_messages_loop json_dumps messages litellm_messages
    = match to_litellm_messages_loop json_dumps messages [] with
      | Return sent => Return (litellm_messages ++ sent)
      | Raise e => Raise e
      end.
Proof.
  induction messages as [| message rest IH]; intros acc.
  - simpl. rewrite app_nil_r. reflexivity.
  - destruct message as [c | c [calls |] | c calls | i c r]; simpl.
    all: rewrite (IH (acc ++ [_])), (IH [_]).
    all: destruct (to_litellm_messages_loop json_dumps rest []); [| reflexivity].
    all: rewrite <- app_assoc; reflexivity.
Qed.

(** X20. [to_litellm_messages] never raises and sends one dictionary per
    message, in order, under the role of the class of the message. *)
Theorem to_litellm_messages_roles (messages : list Message) :
  exists sent,
    to_litellm_messages json_dumps messages = Return sent
    /\ get "role" <$> sent = (fun m => Some (PyStr (role m))) <$> messages.
Proof.
  unfold to_litellm_messages.
  induction messages as [| message rest (sent & Hsent & Hroles)].
  - exists []. split; reflexivity.
  - destruct message as [c | c [calls |] | c calls | i c r]; simpl.
    all: rewrite to_litellm_messages_loop_acc, Hsent.
    all: eexists; split; [reflexivity |].
    all: cbn [app]; rewrite fmap_cons; f_equal; exact Hroles.
Qed.

Lemma to_litellm_messages_loop_forget (messages : list Message) :
  forall litellm_messages,
    to_litellm_messages_loop json_dumps (forget <$> messages) litellm_messages
    = to_litellm_messages_loop json_dumps messages litellm_messages.
Proof.
  induction messages as [| message rest IH]; intros acc; [reflexivity |].
  destruct message as [c | c [calls |] | c calls | i c r]; simpl; rewrite IH; reflexivity.
Qed.

(** X21. The tool calls of a user message and the requestor of a tool message
    are never sent: [to_litellm_messages] gives the same dictionaries with
    and without them. *)
Theorem to_litellm_messages_forgets (messages : list Message) :
  to_litellm_messages json_dumps (forget <$> messages)
  = to_litellm_messages json_dumps messages.
Proof. apply to_litellm_messages_loop_forget. Qed.

Variable new_UserMessage new_AssistantMessage new_ToolMessage new_SystemMessage
  : pydict -> result Message.

Lemma to_tau2_messages_loop_ignored (ignore_roles : gset string) (messages : list pydict) :
  forall tau2_messages,
    to_tau2_messages_loop new_UserMessage new_AssistantMessage new_ToolMessage
      new_SystemMessage
      (List.filter (fun m => negb (ignored ignore_roles m)) messages) ignore_roles
      tau2_messages
    = to_tau2_messages_loop new_UserMessage new_AssistantMessage new_ToolMessage
        new_SystemMessage messages ignore_roles tau2_messages.
Proof.
  induction messages as [| message rest IH]; intros acc; [reflexivity |].
  cbn [List.filter]. unfold ignored at 1, get.
  cbn [to_tau2_messages_loop]. unfold getitem.
  destruct (List.find _ message) as [[k role] |] eqn:Hfind; cbn [negb snd].
  - destruct role as [| b | z | s | l | d]; cbn [negb role_in].
    5, 6: cbn [to_tau2_messages_loop]; unfold getitem; rewrite Hfind; reflexivity.
    4: destruct (bool_decide (s ∈ ignore_roles)) eqn:Hin; cbn [negb]; [apply IH |].
    all: cbn [to_tau2_messages_loop]; unfold getitem; rewrite Hfind; cbn [snd role_in].
    all: rewrite ?Hin; cbn [eq_str].
    all: repeat match goal with
           | |- context [String.eqb ?a ?b] => destruct (String.eqb a b)
           | |- context [match ?c ?m with _ => _ end] =>
               destruct (c m); [rewrite IH |]
           end; try reflexivity.
  - cbn [to_tau2_messages_loop]. unfold getitem. rewrite Hfind. reflexivity.
Qed.

(** X22. Messages whose role is in [ignore_roles] are as good as absent:
    [to_tau2_messages] builds nothing from them, checks nothing in them and
    gives the outcome it gives on the list without them. *)
Theorem to_tau2_messages_ignores (ignore_roles : gset string) (messages : list pydict) :
  to_tau2_messages new_UserMessage new_AssistantMessage new_ToolMessage new_SystemMessage
    (List.filter (fun m => negb (ignored ignore_roles m)) messages) ignore_roles
  = to_tau2_messages new_UserMessage new_AssistantMessage new_ToolMessage
      new_SystemMessage messages ignore_roles.
Proof. apply to_tau2_messages_loop_ignored. Qed.

End ConversionProperties.

Section TotalProperties.

Import LlmUtils.

Lemma get_cost_loop_spec (messages : list Priced) :
  Forall (fun m => is_raise (cost m) = false) (counted messages) ->
  forall agent_cost user_cost,
    get_cost_loop messages agent_cost user_cost
    = match List.find costless (counted messages) with
      | Some m => (Return None, [warning_no_cost (message m)])
      | None =>
          (Return (Some
             (fold_left iadd (costs_of isinstance_AssistantMessage messages) agent_cost,
              fold_left iadd (costs_of isinstance_UserMessage messages) user_cost)), [])
      end.
Proof.
  induction messages as [| m rest IH]; intros Hread a u; [reflexivity |].
  unfold counted, costs_of in *. cbn [List.filter omap get_cost_loop] in *.
  destruct m as [msg c cca us]. cbn [message cost] in *.
  destruct msg as [s | s calls | s calls | i s r];
    cbn [isinstance_ToolMessage isinstance_AssistantMessage isinstance_UserMessage negb]
      in *.
  4: { apply IH, Hread. }
  all: apply Forall_cons in Hread as [Hc Hread]; cbn [cost] in Hc.
  all: destruct c as [[c |] | e]; [| | discriminate].
  all: cbn [List.find costless cost option_bind mbind fold_left message].
  all: try reflexivity.
  all: rewrite IH by exact Hread; reflexivity.
Qed.

(** X23. When the cost of every message that is not a tool message can be
    read, [get_cost] returns [None], with one warning, for the first such
    message whose cost is [None], whatever its class; with no such message
    it returns the total of the assistant costs and the total of the user
    costs, each added up in order from the integer 0, and logs nothing. *)
Theorem get_cost_spec (messages : list Priced) :
  Forall (fun m => is_raise (cost m) = false) (counted messages) ->
  get_cost messages
  = match List.find costless (counted messages) with
    | Some m => (Return None, [warning_no_cost (message m)])
    | None =>
        (Return (Some (total (costs_of isinstance_AssistantMessage messages),
                       total (costs_of isinstance_UserMessage messages))), [])
    end.
Proof. intros Hread. apply get_cost_loop_spec, Hread. Qed.

Lemma get_cost_loop_counted (messages : list Priced) :
  forall agent_cost user_cost,
    get_cost_loop (counted messages) agent_cost user_cost
    = get_cost_loop messages agent_cost user_cost.
Proof.
  induction messages as [| m rest IH]; intros a u; [reflexivity |].
  unfold counted in *. cbn [List.filter get_cost_loop].
  destruct (isinstance_ToolMessage (message m)) eqn:Htool; cbn [negb]; [apply IH |].
  cbn [get_cost_loop]. rewrite Htool.
  destruct (cost m) as [[c |] | e]; try reflexivity.
  repeat destruct (_ (message m)); apply IH.
Qed.

Lemma get_cost_cache_aware_loop_counted (messages : list Priced) :
  forall agent_cost user_cost has_any,
    get_cost_cache_aware_loop (counted messages) agent_cost user_cost has_any
    = get_cost_cache_aware_loop messages agent_cost user_cost has_any.
Proof.
  induction messages as [| m rest IH]; intros a u h; [reflexivity |].
  unfold counted in *. cbn [List.filter get_cost_cache_aware_loop].
  destruct (isinstance_ToolMessage (message m)) eqn:Htool; cbn [negb]; [apply IH |].
  cbn [get_cost_cache_aware_loop]. rewrite Htool.
  destruct (cost_cache_aware m) as [[c |] | e]; try reflexivity; [| apply IH].
  repeat destruct (_ (message m)); apply IH.
Qed.

Lemma get_token_usage_loop_counted (messages : list Priced) :
  forall completion prompt,
    get_token_usage_loop (counted messages) completion prompt
    = get_token_usage_loop messages completion prompt.
Proof.
  induction messages as [| m rest IH]; intros c p; [reflexivity |].
  unfold counted in *. cbn [List.filter get_token_usage_loop].
  destruct (isinstance_ToolMessage (message m)) eqn:Htool; cbn [negb]; [apply IH |].
  cbn [get_token_usage_loop]. rewrite Htool.
  destruct (usage_of m) as [[us |] | e]; try reflexivity.
  - destruct (add_count c us _); [| reflexivity].
    destruct (add_count p us _); [apply IH | reflexivity].
  - rewrite IH. reflexivity.
Qed.

(** X24. Tool messages never count: [get_cost], [get_cost_cache_aware] and
    [get_token_usage] read no attribute of a tool message, and give on a
    trajectory what they give on the trajectory without its tool
    messages. *)
Theorem totals_skip_tool_messages (messages : list Priced) :
  get_cost (counted messages) = get_cost messages
  /\ get_cost_cache_aware (counted messages) = get_cost_cache_aware messages
  /\ get_token_usage (counted messages) = get_token_usage messages.
Proof.
  unfold get_cost, get_cost_cache_aware, get_token_usage.
  rewrite get_cost_loop_counted, get_cost_cache_aware_loop_counted,
    get_token_usage_loop_counted.
  auto.
Qed.

Lemma get_cost_cache_aware_loop_spec (messages : list Priced) :
  forall agent_cost user_cost has_any agent_cost' user_cost' has_any',
    get_cost_cache_aware_loop messages agent_cost user_cost has_any
    = Return (agent_cost', user_cost', has_any') ->
    agent_cost'
    = fold_left PrimFloat.add (cache_costs_of isinstance_AssistantMessage messages)
        agent_cost
    /\ user_cost'
       = fold_left PrimFloat.add (cache_costs_of isinstance_UserMessage messages)
           user_cost
    /\ if has_any' then has_any = true \/ Exists cache_priced (counted messages)
       else has_any = false
            /\ Forall (fun m => cost_cache_aware m = Return None) (counted messages).
Proof.
  induction messages as [| m rest IH]; intros a u h a' u' h' Hloop.
  - injection Hloop as <- <- <-. split; [reflexivity |]. split; [reflexivity |].
    destruct h; [left; reflexivity |]. split; [reflexivity | constructor].
  - unfold counted, cache_costs_of in *.
    cbn [List.filter get_cost_cache_aware_loop omap] in *.
    destruct m as [msg c cca us]. cbn [message cost_cache_aware] in *.
    destruct msg as [s | s calls | s calls | i s r];
      cbn [isinstance_ToolMessage isinstance_AssistantMessage isinstance_UserMessage
             negb] in *.
    4: { exact (IH _ _ _ _ _ _ Hloop). }
    all: destruct cca as [[x |] | e]; [| | discriminate].
    all: cbn [option_bind mbind fold_left] in *.
    all: apply IH in Hloop as (Ha & Hu & Hany).
    all: split; [exact Ha |]; split; [exact Hu |].
    all: destruct h'.
    all: try (right; left; exists x; reflexivity).
    all: try (destruct Hany as [? _]; discriminate).
    all: try (destruct Hany as [-> | Hex]; [left; reflexivity | right; right; exact Hex]).
    all: destruct Hany as [-> Hall]; split; [reflexivity |]; constructor;
           [reflexivity | exact Hall].
Qed.

(** X25. [get_cost_cache_aware] returns two [None] or two floats, never one
    of each: [(None, None)] when no message other than a tool message has a
    cache-aware cost, and otherwise the total of the cache-aware costs of the
    assistant messages and the total of those of the user messages, each
    added up in order from 0.0, so that a side without such a message gets
    0.0. *)
Theorem get_cost_cache_aware_both_or_neither (messages : list Priced)
    (costs : option float * option float) :
  get_cost_cache_aware messages = Return costs ->
  (costs = (None, None)
   /\ Forall (fun m => cost_cache_aware m = Return None) (counted messages))
  \/ (costs
      = (Some (fold_left PrimFloat.add
                 (cache_costs_of isinstance_AssistantMessage messages) zero),
         Some (fold_left PrimFloat.add
                 (cache_costs_of isinstance_UserMessage messages) zero))
      /\ Exists cache_priced (counted messages)).
Proof.
  unfold get_cost_cache_aware.
  destruct (get_cost_cache_aware_loop messages zero zero false)
    as [[[a u] h] | e] eqn:Hloop; [| discriminate].
  apply get_cost_cache_aware_loop_spec in Hloop as (-> & -> & Hany).
  destruct h; cbn [negb]; intros [= <-].
  - right. split; [reflexivity |]. destruct Hany as [? | Hex]; [discriminate | auto].
  - left. destruct Hany as [_ Hall]. auto.
Qed.

Lemma get_token_usage_loop_spec (messages : list Priced) :
  Forall has_counts (counted messages) ->
  forall completion prompt,
    get_token_usage_loop messages completion prompt
    = (Return ((completion + sum (count_of "completion_tokens" <$> counted messages))%Z,
               (prompt + sum (count_of "prompt_tokens" <$> counted messages))%Z),
       warning_no_usage <$> (message <$> List.filter usageless (counted messages))).
Proof.
  induction messages as [| m rest IH]; intros Hcounts c p.
  - cbn. rewrite !Z.add_0_r. reflexivity.
  - unfold counted in *. cbn [List.filter get_token_usage_loop] in *.
    destruct (isinstance_ToolMessage (message m)) eqn:Htool; cbn [negb] in *;
      [apply IH, Hcounts |].
    apply Forall_cons in Hcounts as [Hm Hcounts].
    cbn [fmap list_fmap sum foldr List.filter]. unfold usageless at 1, count_of at 1 3.
    destruct Hm as [-> | (us & cn & pn & -> & Hc & Hp)].
    + rewrite (IH Hcounts). cbn [fmap list_fmap]. rewrite !Z.add_0_l. reflexivity.
    + unfold add_count. rewrite Hc, Hp, (IH Hcounts). unfold sum.
      rewrite !Z.add_assoc. reflexivity.
Qed.

(** X26. When every message that is not a tool message has no usage or a
    usage dictionary with both counts, [get_token_usage] returns exactly the
    two sums over the messages that have usage, and warns once, in order, for
    each message without usage, which it skips instead of giving up. *)
Theorem get_token_usage_sums (messages : list Priced) :
  Forall has_counts (counted messages) ->
  get_token_usage messages
  = (Return {[ "completion_tokens" :=
                 sum (count_of "completion_tokens" <$> counted messages);
               "prompt_tokens" := sum (count_of "prompt_tokens" <$> counted messages) ]},
     warning_no_usage <$> (message <$> List.filter usageless (counted messages))).
Proof.
  intros Hcounts. unfold get_token_usage.
  rewrite (get_token_usage_loop_spec messages Hcounts). reflexivity.
Qed.

End TotalProperties.

Section ResponseProperties.

Import LlmUtils CostTokenRatio.

Variable alnum : char -> bool.
Variable completion_cost : ModelResponse -> result float.
Variable cost_per_token : pystr -> Z -> Z -> result (float * float).

(** X27. [get_response_cost] raises exactly when the model of the response
    is [None]: the name is parsed before the [try] and [re.match] raises
    [TypeError], with nothing priced and nothing logged. For a response that
    has a model it never raises, whatever [completion_cost] does; it leaves
    the usage of the response alone, and pricing the response it renamed
    again gives the same cost, the same response and the same log. *)
Theorem get_response_cost_repeatable (response : ModelResponse) :
  match model response with
  | None =>
      exists e, get_response_cost alnum completion_cost response = (Raise e, [])
  | Some _ =>
      exists cost renamed log,
        get_response_cost alnum completion_cost response = (Return (cost, renamed), log)
        /\ usage renamed = usage response
        /\ get_response_cost alnum completion_cost renamed
           = (Return (cost, renamed), log)
  end.
Proof.
  unfold get_response_cost. destruct (model response) as [name |]; [| eauto].
  cbn [parse_model].
  destruct (parse_ft_model_name_returns alnum name) as (parsed & Hparsed).
  rewrite Hparsed.
  destruct (completion_cost (mkModelResponse (Some parsed) (usage response)))
    as [cost | e] eqn:Hcost.
  all: eexists _, _, _; split; [reflexivity |]; split; [reflexivity |].
  all: cbn [model usage parse_model].
  all: rewrite (parse_ft_model_name_fixed alnum _ _ Hparsed), Hcost; reflexivity.
Qed.

(** X28. [get_response_cost_cache_aware] raises exactly when the response
    has a [cache_creation_tokens] count and its model is [None]: the name is
    parsed before the [try]. It returns a cost only for a response whose
    usage dictionary, as [get_response_usage] builds it, has a
    [cache_creation_tokens] count, and never together with a log line; a
    failure of [cost_per_token] gives [None]. *)
Theorem cache_aware_cost_needs_breakdown (response : ModelResponse) :
  exists r log,
    get_response_cost_cache_aware alnum cost_per_token response = (r, log)
    /\ (is_raise r = true
        <-> model response = None
            /\ exists us details n,
                 usage response = Some us
                 /\ prompt_tokens_details us = Some details
                 /\ cache_creation_tokens details = Some n)
    /\ (forall cost,
          r = Return (Some cost) ->
          log = []
          /\ exists u n,
               get_response_usage response = Some u
               /\ u !! "cache_creation_tokens" = Some (Some n)).
Proof.
  unfold get_response_cost_cache_aware, get_response_usage.
  destruct (usage response) as [us |].
  2: { eexists _, _. split; [reflexivity |]. split; [| discriminate].
       split; [discriminate | intros (_ & us & d & n & H & _); discriminate]. }
  destruct (prompt_tokens_details us) as [details |] eqn:Hdetails.
  2: { eexists _, _. split; [reflexivity |]. split; [| discriminate].
       split; [discriminate |].
       intros (_ & us' & d & n & [= <-] & H & _). congruence. }
  destruct (cache_creation_tokens details) as [n |] eqn:Hcreation.
  2: { eexists _, _. split; [reflexivity |]. split; [| discriminate].
       split; [discriminate |].
       intros (_ & us' & d & n & [= <-] & H & H'). congruence. }
  destruct (model response) as [name |]; cbn [parse_model].
  - destruct (parse_ft_model_name_returns alnum name) as (parsed & ->).
    destruct (cost_per_token _ _ _) as [[input_cost output_cost] | e];
      eexists _, _; (split; [reflexivity |]).
    + split; [split; [discriminate | intros [? _]; discriminate] |].
      intros cost _. split; [reflexivity |]. eexists _, n. split; [reflexivity |].
      unfold usage_dict. apply lookup_insert_eq.
    + split; [split; [discriminate | intros [? _]; discriminate] | discriminate].
  - eexists _, _. split; [reflexivity |]. split; [| discriminate].
    split; [| reflexivity]. intros _. split; [reflexivity |].
    exists us, details, n. auto.
Qed.

(** What a response reports, with [None] read as 0. *)
Lemma get_or_0_insert_ne (u : usage_dict) (key key' : string) (v : option Z) :
  key <> key' -> get_or_0 (<[key := v]> u) key' = get_or_0 u key'.
Proof.
  intros Hne. unfold get_or_0, usage_dict in *.
  rewrite lookup_insert_ne by exact Hne. reflexivity.
Qed.

Lemma get_or_0_insert (u : usage_dict) (key : string) (v : option Z) :
  get_or_0 (<[key := v]> u) key = or_0 v.
Proof.
  unfold get_or_0, usage_dict in *. rewrite lookup_insert_eq. destruct v; reflexivity.
Qed.

(** X29. A response with usage has a usage dictionary, and on it
    [_weighted_tokens] gives the counts the response reported, 0 for a count
    that is missing or [None], weighed as prompt + cache creation +
    6 * completion: the tokens read from the cache add nothing to the
    weight. *)
Theorem weighted_tokens_of_response (response : ModelResponse) (us : Usage) :
  usage response = Some us ->
  exists u,
    get_response_usage response = Some u
    /\ _weighted_tokens u
       = (or_0 (prompt_tokens us), or_0 (completion_tokens us),
          or_0 (prompt_tokens_details us ≫= cached_tokens),
          or_0 (prompt_tokens_details us ≫= cache_creation_tokens),
          (or_0 (prompt_tokens us)
           + or_0 (prompt_tokens_details us ≫= cache_creation_tokens)
           + 6 * or_0 (completion_tokens us))%Z).
Proof.
  intros Hus. unfold get_response_usage. rewrite Hus.
  unfold _weighted_tokens.
  assert (Hbase : forall key,
             get_or_0 ({[ "completion_tokens" := completion_tokens us;
                          "prompt_tokens" := prompt_tokens us ]} : usage_dict) key
             = if String.eqb key "completion_tokens" then or_0 (completion_tokens us)
               else if String.eqb key "prompt_tokens" then or_0 (prompt_tokens us)
               else 0%Z).
  { intros key. destruct (String.eqb_spec key "completion_tokens") as [-> | Hc].
    - apply get_or_0_insert.
    - rewrite get_or_0_insert_ne by congruence. unfold get_or_0, usage_dict.
      destruct (String.eqb_spec key "prompt_tokens") as [-> | Hp].
      + rewrite lookup_singleton_eq. destruct (prompt_tokens us); reflexivity.
      + rewrite lookup_singleton_ne by congruence. reflexivity. }
  destruct (prompt_tokens_details us) as [[cached creation] |];
    cbn [cached_tokens cache_creation_tokens mbind option_bind] in *.
  - destruct cached as [cached |], creation as [creation |].
    all: eexists; split; [reflexivity |].
    all: rewrite ?get_or_0_insert, ?(get_or_0_insert_ne _ "cache_creation_tokens") by done.
    all: rewrite ?get_or_0_insert, ?(get_or_0_insert_ne _ "cached_tokens") by done.
    all: rewrite !Hbase; reflexivity.
  - eexists; split; [reflexivity |]. rewrite !Hbase. reflexivity.
Qed.

End ResponseProperties.


(** * The further properties on sample data *)

Section FurtherInstances.

Import Ledger Samples.

Lemma returned_rewards_are_binary_witness : binary_rewards booking_reward_info.
Proof.
  apply (returned_rewards_are_binary logfire_off constructor booking_task agent_books
           false [] booking_reward_info booking_log).
  vm_compute. reflexivity.
Defined.

Lemma reward_one_iff_signals_pass_witness :
  reward booking_reward_info = one
  <-> signals_pass (reward_basis booking_criteria) booking_reward_info.
Proof.
  apply (reward_one_iff_signals_pass logfire_off constructor booking_task
           booking_criteria agent_books false [] booking_reward_info booking_log).
  - reflexivity.
  - vm_compute. reflexivity.
Defined.

Lemma exception_sources_witness :
  (exists mode,
     sealed_constructor mode = Raise (Exception "agent database cannot be dumped"))
  \/ (exists history (env : sealed),
        (set_state (task_initialization_data booking_task)
           (task_initialization_actions booking_task) history env).1
        = Raise (Exception "agent database cannot be dumped"))
  \/ (exists env : sealed,
        tools_is_not_none env = true
        /\ get_agent_db_state env = Raise (Exception "agent database cannot be dumped"))
  \/ (exists env : sealed,
        get_db_hash env = Raise (Exception "agent database cannot be dumped"))
  \/ (exists env : sealed,
        get_user_db_hash env = Raise (Exception "agent database cannot be dumped"))
  \/ (exists criteria a (env : sealed),
        evaluation_criteria booking_task = Some criteria
        /\ a ∈ default [] (env_assertions criteria)
        /\ (run_env_assertion a false env).1
           = Raise (Exception "agent database cannot be dumped")).
Proof.
  apply (exception_sources logfire_on sealed_constructor booking_task agent_books false
           [] (Exception "agent database cannot be dumped") []).
  vm_compute. reflexivity.
Defined.

Lemma history_only_trajectory_matches_witness :
  exists ri log',
    calculate_reward logfire_off constructor history_task agent_books true []
    = (Return ri, log')
    /\ db_check ri = Some (mkDBCheck true one).
Proof.
  eexists _, _. split; [vm_compute; reflexivity |].
  apply (history_only_trajectory_matches logfire_off constructor history_task
           history_criteria agent_books true [] _ []); [reflexivity .. |].
  vm_compute. reflexivity.
Defined.

Lemma logfire_only_adds_spans_witness :
  exists r evs,
    calculate_reward logfire_on constructor booking_task agent_books false []
    = (r, [] ++ evs)
    /\ calculate_reward logfire_off constructor booking_task agent_books false
         booking_log = (r, booking_log ++ loguru evs).
Proof.
  apply (logfire_only_adds_spans logfire_on logfire_off constructor booking_task
           agent_books false [] booking_log).
  reflexivity.
Defined.

Lemma unconfigured_logfire_is_inert_witness :
  calculate_reward logfire_off constructor booking_task agent_books false []
  = calculate_reward logfire_unavailable constructor booking_task agent_books false []
  /\ exists evs,
       (calculate_reward logfire_off constructor booking_task agent_books false []).2
       = [] ++ evs
       /\ Forall (fun ev => is_span ev = false) evs.
Proof.
  apply (unconfigured_logfire_is_inert logfire_off logfire_unavailable constructor
           booking_task agent_books false []); reflexivity.
Defined.

Lemma disabled_never_touches_library_witness :
  (LogfireSetup.run settings_off session process_without_token).1 = process_without_token
  /\ List.filter LogfireSetup.is_library_call
       (LogfireSetup.run settings_off session process_without_token).2 = [].
Proof.
  apply (disabled_never_touches_library settings_off session process_without_token);
    reflexivity.
Defined.

Lemma status_line_shows_token_witness :
  (exists ev,
     ev ∈ (LogfireSetup.init_logfire settings_off library process_with_token).2
     /\ LogfireSetup.status_shows "pylf_v1_us_token" ev)
  <-> LogfireSetup._LOGFIRE_DEBUG process_with_token = true
      /\ LogfireSetup.configured process_with_token = false
      /\ LogfireSetup.USE_LOGFIRE settings_off = false.
Proof.
  apply (status_line_shows_token settings_off library process_with_token
           "pylf_v1_us_token").
  reflexivity.
Defined.

Lemma parse_ft_model_name_fine_tuned_witness :
  LlmUtils._parse_ft_model_name ascii_names fine_tuned_name = Return base_name.
Proof.
  apply (parse_ft_model_name_fine_tuned ascii_names fine_tuned_name base_name).
  exists (LlmUtils.py "sierra"), 66%N, (LlmUtils.py "SQA2TFg").
  repeat split; try reflexivity; discriminate.
Defined.

Lemma parse_ft_model_name_other_witness :
  LlmUtils._parse_ft_model_name ascii_names plain_name = Return plain_name.
Proof.
  apply (parse_ft_model_name_other ascii_names plain_name).
  intros model (provider & id_start & rest & Hname & _). discriminate Hname.
Defined.

Lemma get_cost_spec_witness :
  LlmUtils.get_cost conversation
  = (Return (Some (LlmUtils.float_ 1%float, LlmUtils.float_ 0.25%float)), []).
Proof.
  apply (get_cost_spec conversation).
  repeat constructor.
Defined.

Lemma get_cost_cache_aware_both_or_neither_witness :
  ((Some 0.125%float, Some 0.0625%float) = (None, None)
   /\ Forall (fun m => LlmUtils.cost_cache_aware m = Return None)
        (LlmUtils.counted conversation))
  \/ ((Some 0.125%float, Some 0.0625%float)
      = (Some (fold_left PrimFloat.add
                 (LlmUtils.cache_costs_of isinstance_AssistantMessage conversation)
                 zero),
         Some (fold_left PrimFloat.add
                 (LlmUtils.cache_costs_of isinstance_UserMessage conversation) zero))
      /\ Exists LlmUtils.cache_priced (LlmUtils.counted conversation)).
Proof.
  apply (get_cost_cache_aware_both_or_neither conversation). reflexivity.
Defined.

Lemma get_token_usage_sums_witness :
  LlmUtils.get_token_usage conversation
  = (Return {[ "completion_tokens" := 12%Z; "prompt_tokens" := 140%Z ]},
     [LlmUtils.warning_no_usage (AssistantMessage (Some "Done.") None)]).
Proof.
  apply (get_token_usage_sums conversation).
  change (LlmUtils.counted conversation) with [user_turn; agent_turn; answer_turn].
  constructor; [| constructor; [| constructor; [| constructor]]].
  - right. eexists _, 5%Z, 40%Z. repeat split.
  - right. eexists _, 7%Z, 100%Z. repeat split.
  - left. reflexivity.
Defined.

Lemma weighted_tokens_of_response_witness :
  exists u,
    LlmUtils.get_response_usage response = Some u
    /\ CostTokenRatio._weighted_tokens u = (100, 7, 60, 30, 172)%Z.
Proof.
  apply (weighted_tokens_of_response response
           (LlmUtils.mkUsage (Some 7%Z) (Some 100%Z)
              (Some (LlmUtils.mkPromptTokensDetails (Some 60%Z) (Some 30%Z))))).
  reflexivity.
Defined.

End FurtherInstances.
